(** * Portainer stack automation: deployment and health validation

    A shallow embedding of [scripts/portainer-automation.py]: the
    [PortainerClient] methods and the [cmd_deploy], [cmd_delete] and [main]
    entry points, as computations over an explicit state (wall clock, number
    of service polls made, log of HTTP requests and sleeps) that may raise
    the exceptions the script raises.  The Portainer server, the file system
    and the terminal are an immutable [world] that answers every request.
    What the script prints is left out: no branch depends on it.  Time is
    counted in whole units (seconds), the unit of [timeout] and of the
    sleeps. *)

From Stdlib Require Import List String Ascii ZArith Bool Arith Lia.
Import ListNotations.

Local Open Scope string_scope.
Local Open Scope Z_scope.
Local Open Scope list_scope.

(** ** Data model: the JSON documents the script reads *)

(** An entry of [GET /api/endpoints].  The script reads [ep['Name']] and
    [ep['Id']] by subscript and [ep.get('Type')] with a default of [None]. *)
Record endpoint := mkEndpoint {
  ep_Id : Z;
  ep_Name : string;
  ep_Type : option Z
}.

(** An entry of [GET /api/stacks]: [stack['Id']], [stack['Name']] by
    subscript and [stack.get('EndpointId')]. *)
Record stack := mkStack {
  stack_Id : Z;
  stack_Name : string;
  stack_EndpointId : option Z
}.

(** [mode['Replicated']], whose ['Replicas'] is read with [.get(.., 0)].
    Replica and task counts are unsigned counters in the Docker API. *)
Record replicated_mode := mkReplicated {
  Replicas : option nat
}.

(** [svc['Spec']['Mode']]; only the presence of the ['Replicated'] key is
    ever inspected, every other mode takes the [else] branch. *)
Record service_mode := mkMode {
  Replicated : option replicated_mode
}.

(** [svc['ServiceStatus']], whose ['RunningTasks'] is read with
    [.get(.., 0)]. *)
Record service_status := mkStatus {
  RunningTasks : option nat
}.

(** An entry of [GET .../docker/services]: [svc['Spec']['Name']] by
    subscript, [svc['Spec'].get('Mode', {})] and
    [svc.get('ServiceStatus', {})]. *)
Record service := mkService {
  Spec_Name : string;
  Spec_Mode : option service_mode;
  ServiceStatus : option service_status
}.

(** One element of the [env] payload, [{"name": key, "value": value}]. *)
Record env_var := mkEnv {
  env_name : string;
  env_value : string
}.

(** The sub-commands of the argument parser. *)
Inductive command := CmdList | CmdDeploy | CmdDelete.

(** The [argparse.Namespace] the commands receive.  [endpoint] and [env]
    are [None] when the option is absent. *)
Record arguments := mkArgs {
  arg_command : option command;
  arg_user : string;
  arg_password : string;
  arg_endpoint : option string;
  arg_stack_name : string;
  arg_compose_file : string;
  arg_env : option (list string);
  arg_no_validate : bool;
  arg_yes : bool
}.

(** ** Exceptions *)

(** The two messages [get_endpoint_id] puts in its [ValueError]. *)
Inductive resolution_error :=
| NotFound (endpoint_name : string)
| NoneAvailable.

(** [HTTPError] is what [raise_for_status] raises; every other failure of
    a request (connection refused, timeout, body that is not JSON) is a
    [RequestException] that is not an [HTTPError]. *)
Inductive exn :=
| ValueError (why : resolution_error)
| HTTPError
| RequestException.

Definition is_ValueError (e : exn) : bool :=
  match e with ValueError _ => true | _ => false end.

Definition is_HTTPError (e : exn) : bool :=
  match e with HTTPError => true | _ => false end.

(** [except requests.exceptions.RequestException] also catches its
    subclass [HTTPError]. *)
Definition is_RequestException (e : exn) : bool :=
  match e with HTTPError | RequestException => true | ValueError _ => false end.

(** ** The environment *)

(** What one request does: a decoded body, or a failure. *)
Inductive response (A : Type) :=
| Ok (body : A)
| HttpFail
| TransportFail.
Arguments Ok {A} body.
Arguments HttpFail {A}.
Arguments TransportFail {A}.

(** The requests and sleeps a run performs, in order. *)
Inductive event :=
| POST_auth (username password : string)
| GET_endpoints
| GET_swarm (endpoint_id : Z)
| GET_stacks
| POST_create (endpoint_id : Z) (name content swarm_id : string)
              (env : list env_var)
| PUT_update (stack_id endpoint_id : Z) (content : string)
             (env : list env_var) (prune : bool)
| DELETE_stack (stack_id endpoint_id : Z)
| GET_services (endpoint_id : Z) (stack_name : string)
| Sleep (seconds : Z)
| Input.

(** Everything outside the script.  [services_resp k] answers the [k]-th
    service poll of the run and [poll_duration k] is the time that poll
    takes; [files] maps a path to the content of the file there. *)
Record world := mkWorld {
  files : string -> option string;
  input_reply : string;
  auth_resp : string -> string -> response unit;
  endpoints_resp : response (list endpoint);
  swarm_resp : Z -> response string;
  stacks_resp : response (list stack);
  create_resp : Z -> string -> string -> string -> list env_var -> response unit;
  update_resp : Z -> Z -> string -> list env_var -> bool -> response unit;
  delete_resp : Z -> Z -> response unit;
  services_resp : nat -> Z -> string -> response (list service);
  poll_duration : nat -> nat
}.

(** The state a run threads: the wall clock [time.time()] reads, the number
    of service polls made so far, and the log. *)
Record state := mkState {
  now : Z;
  polls : nat;
  log : list event
}.

(** ** Computations *)

(** A computation returns, raises, or (the polling loop only) exhausts the
    iteration bound of its model; [validate_deployment_total] shows that
    the last never happens. *)
Inductive result (A : Type) :=
| Ret (a : A)
| Raise (e : exn)
| Diverge.
Arguments Ret {A} a.
Arguments Raise {A} e.
Arguments Diverge {A}.

Definition M (A : Type) : Type := state -> result A * state.

Definition ret {A} (a : A) : M A := fun st => (Ret a, st).

Definition raise {A} (e : exn) : M A := fun st => (Raise e, st).

Definition bind {A B} (m : M A) (k : A -> M B) : M B :=
  fun st =>
    match m st with
    | (Ret a, st') => k a st'
    | (Raise e, st') => (Raise e, st')
    | (Diverge, st') => (Diverge, st')
    end.

Declare Scope comp_scope.
Delimit Scope comp_scope with comp.
Notation "x <- c1 ;; c2" := (bind c1 (fun x => c2))
  (at level 100, c1 at next level, right associativity) : comp_scope.
Notation "c1 ;; c2" := (bind c1 (fun _ => c2))
  (at level 100, right associativity) : comp_scope.
Local Open Scope comp_scope.

(** [try: m  except E: ...] for the exceptions [handles] accepts: the
    outcome of [m], or the exception caught. *)
Definition try_except {A} (m : M A) (handles : exn -> bool) : M (A + exn) :=
  fun st =>
    match m st with
    | (Ret a, st') => (Ret (inl a), st')
    | (Raise e, st') =>
        if handles e then (Ret (inr e), st') else (Raise e, st')
    | (Diverge, st') => (Diverge, st')
    end.

Definition emit (e : event) : M unit :=
  fun st => (Ret tt, mkState (now st) (polls st) (log st ++ [e])).

(** A request whose answer is [r]: [raise_for_status] turns an error status
    into [HTTPError]. *)
Definition request {A} (e : event) (r : response A) : M A :=
  emit e ;;
  match r with
  | Ok body => ret body
  | HttpFail => raise HTTPError
  | TransportFail => raise RequestException
  end.

(** [time.time()]. *)
Definition time_time : M Z := fun st => (Ret (now st), st).

(** [time.sleep(seconds)]. *)
Definition time_sleep (seconds : Z) : M unit :=
  fun st => (Ret tt, mkState (now st + seconds) (polls st)
                             (log st ++ [Sleep seconds])).

(** ** Python helpers *)

(** Truth value of an [Optional[str]]: [None] and the empty string are
    false. *)
Definition str_truthy (s : option string) : bool :=
  match s with
  | None => false
  | Some EmptyString => false
  | Some (String _ _) => true
  end.

(** [env.split('=', 1)] when ['=' in env]: the text before the first
    ['='] and the text after it; [None] when [env] has no ['=']. *)
Fixpoint split_eq (env : string) : option (string * string) :=
  match env with
  | EmptyString => None
  | String c rest =>
      if Ascii.eqb c "="%char then Some (EmptyString, rest)
      else match split_eq rest with
           | Some (key, value) => Some (String c key, value)
           | None => None
           end
  end.

(** [reply.lower() == 'y']. *)
Definition lower_is_y (reply : string) : bool :=
  String.eqb reply "y" || String.eqb reply "Y".

(** [x in [1, 2]] for the value of [ep.get('Type')]. *)
Definition in_1_2 (x : option Z) : bool :=
  match x with
  | Some t => (t =? 1) || (t =? 2)
  | None => false
  end.

(** [stack.get('EndpointId') == endpoint_id]. *)
Definition get_eq (x : option Z) (endpoint_id : Z) : bool :=
  match x with
  | Some e => e =? endpoint_id
  | None => false
  end.

(** ** PortainerClient *)

Section Client.

Variable w : world.

(** [authenticate]: any [RequestException] is caught and gives [False]. *)
Definition authenticate (username password : string) : M bool :=
  r <- try_except (request (POST_auth username password)
                           (auth_resp w username password))
                  is_RequestException ;;
  match r with
  | inl _ => ret true
  | inr _ => ret false
  end.

Definition get_endpoints : M (list endpoint) :=
  request GET_endpoints (endpoints_resp w).

(** [for ep in endpoints: if ep['Name'] == endpoint_name: return ep['Id']];
    [None] when the loop runs to its end. *)
Fixpoint first_named (endpoints : list endpoint) (endpoint_name : string)
  : option Z :=
  match endpoints with
  | [] => None
  | ep :: rest =>
      if String.eqb (ep_Name ep) endpoint_name then Some (ep_Id ep)
      else first_named rest endpoint_name
  end.

(** [for ep in endpoints: if ep.get('Type') in [1, 2]: return ep['Id']]. *)
Fixpoint first_docker_or_swarm (endpoints : list endpoint) : option Z :=
  match endpoints with
  | [] => None
  | ep :: rest =>
      if in_1_2 (ep_Type ep) then Some (ep_Id ep)
      else first_docker_or_swarm rest
  end.

(** The selection [get_endpoint_id] makes in the list it fetched: the
    identifier it returns, or the reason of the [ValueError] it raises.
    Under [if endpoint_name:] the search is by name; [None] and the empty
    string fall through to the search by type. *)
Definition select_endpoint (endpoints : list endpoint)
    (endpoint_name : option string) : Z + resolution_error :=
  match endpoint_name with
  | Some name =>
      if str_truthy endpoint_name then
        match first_named endpoints name with
        | Some id => inl id
        | None => inr (NotFound name)
        end
      else
        match first_docker_or_swarm endpoints with
        | Some id => inl id
        | None => inr NoneAvailable
        end
  | None =>
      match first_docker_or_swarm endpoints with
      | Some id => inl id
      | None => inr NoneAvailable
      end
  end.

Definition get_endpoint_id (endpoint_name : option string) : M Z :=
  endpoints <- get_endpoints ;;
  match select_endpoint endpoints endpoint_name with
  | inl id => ret id
  | inr why => raise (ValueError why)
  end.

Definition get_swarm_id (endpoint_id : Z) : M string :=
  request (GET_swarm endpoint_id) (swarm_resp w endpoint_id).

Definition list_stacks : M (list stack) :=
  request GET_stacks (stacks_resp w).

(** [env_vars or []]. *)
Definition or_empty (env_vars : list env_var) : list env_var :=
  match env_vars with
  | [] => []
  | _ :: _ => env_vars
  end.

Definition deploy_stack (name compose_content : string) (endpoint_id : Z)
    (env_vars : list env_var) : M unit :=
  swarm_id <- get_swarm_id endpoint_id ;;
  request (POST_create endpoint_id name compose_content swarm_id
                       (or_empty env_vars))
          (create_resp w endpoint_id name compose_content swarm_id
                       (or_empty env_vars)).

Definition update_stack (stack_id : Z) (compose_content : string)
    (endpoint_id : Z) (env_vars : list env_var) (prune : bool) : M unit :=
  request (PUT_update stack_id endpoint_id compose_content
                      (or_empty env_vars) prune)
          (update_resp w stack_id endpoint_id compose_content
                       (or_empty env_vars) prune).

Definition delete_stack (stack_id endpoint_id : Z) : M bool :=
  request (DELETE_stack stack_id endpoint_id)
          (delete_resp w stack_id endpoint_id) ;;
  ret true.

(** The [k]-th service poll of the run takes [poll_duration w k]. *)
Definition get_stack_services (endpoint_id : Z) (stack_name : string)
  : M (list service) :=
  fun st =>
    let k := polls st in
    let st' := mkState (now st + Z.of_nat (poll_duration w k)) (S k)
                       (log st ++ [GET_services endpoint_id stack_name]) in
    match services_resp w k endpoint_id stack_name with
    | Ok body => (Ret body, st')
    | HttpFail => (Raise HTTPError, st')
    | TransportFail => (Raise RequestException, st')
    end.

(** [svc.get('ServiceStatus', {}).get('RunningTasks', 0)]. *)
Definition running_tasks (svc : service) : nat :=
  match ServiceStatus svc with
  | Some status =>
      match RunningTasks status with
      | Some n => n
      | None => 0%nat
      end
  | None => 0%nat
  end.

(** [mode['Replicated'].get('Replicas', 0)]. *)
Definition desired_replicas (r : replicated_mode) : nat :=
  match Replicas r with
  | Some n => n
  | None => 0%nat
  end.

(** [svc['Spec'].get('Mode', {})], of which only ['Replicated'] is read. *)
Definition mode_of (svc : service) : service_mode :=
  match Spec_Mode svc with
  | Some mode => mode
  | None => mkMode None
  end.

(** One iteration of [for svc in services]: the new value of
    [all_healthy]. *)
Definition check_service (svc : service) (all_healthy : bool) : bool :=
  match Replicated (mode_of svc) with
  | Some r =>
      let desired := desired_replicas r in
      let running := running_tasks svc in
      if (running <? desired)%nat then false else all_healthy
  | None =>
      let running := running_tasks svc in
      if (running =? 0)%nat then false else all_healthy
  end.

(** The [for svc in services] loop, started with [all_healthy = True]. *)
Fixpoint check_services (services : list service) (all_healthy : bool)
  : bool :=
  match services with
  | [] => all_healthy
  | svc :: rest => check_services rest (check_service svc all_healthy)
  end.

(** [not services]. *)
Definition is_empty {A} (l : list A) : bool :=
  match l with
  | [] => true
  | _ :: _ => false
  end.

(** The [while time.time() - start_time < timeout] loop; [fuel] bounds the
    number of iterations. *)
Fixpoint validate_loop (fuel : nat) (endpoint_id : Z) (stack_name : string)
    (timeout start_time : Z) : M bool :=
  match fuel with
  | O => fun st => (Diverge, st)
  | S fuel' =>
      t <- time_time ;;
      if t - start_time <? timeout then
        services <- get_stack_services endpoint_id stack_name ;;
        if is_empty services then
          time_sleep 5 ;;
          validate_loop fuel' endpoint_id stack_name timeout start_time
        else if check_services services true then ret true
        else
          time_sleep 5 ;;
          validate_loop fuel' endpoint_id stack_name timeout start_time
      else ret false
  end.

(** Every iteration that does not return sleeps 5, so [timeout] iterations
    and one more check always suffice. *)
Definition validate_deployment (endpoint_id : Z) (stack_name : string)
    (timeout : Z) : M bool :=
  start_time <- time_time ;;
  validate_loop (S (Z.to_nat timeout)) endpoint_id stack_name timeout
                start_time.

(** ** Commands *)

(** The [--env] loop: entries without ['='] are skipped. *)
Fixpoint parse_env (envs : list string) : list env_var :=
  match envs with
  | [] => []
  | env :: rest =>
      match split_eq env with
      | Some (key, value) => mkEnv key value :: parse_env rest
      | None => parse_env rest
      end
  end.

(** [if args.env: for env in args.env: ...]. *)
Definition env_vars_of (env : option (list string)) : list env_var :=
  match env with
  | Some envs => parse_env envs
  | None => []
  end.

(** The scan of [cmd_deploy], which stops at the first stack whose name and
    endpoint both match; [None] is [existing_stack = None]. *)
Fixpoint find_existing (stacks : list stack) (stack_name : string)
    (endpoint_id : Z) : option stack :=
  match stacks with
  | [] => None
  | stack :: rest =>
      if String.eqb (stack_Name stack) stack_name
         && get_eq (stack_EndpointId stack) endpoint_id
      then Some stack
      else find_existing rest stack_name endpoint_id
  end.

(** The default of [validate_deployment]'s [timeout], which [cmd_deploy]
    uses. *)
Definition default_timeout : Z := 120.

(** The [if existing_stack: ... else: ...] of [cmd_deploy]; a stack
    dictionary has a ['Name'] and is therefore true.  [update_stack] is
    called without [prune], which defaults to [True]. *)
Definition mutate (args : arguments) (compose_content : string)
    (env_vars : list env_var) (endpoint_id : Z)
    (existing_stack : option stack) : M unit :=
  match existing_stack with
  | Some existing =>
      update_stack (stack_Id existing) compose_content endpoint_id
                   env_vars true
  | None =>
      deploy_stack (arg_stack_name args) compose_content endpoint_id
                   env_vars
  end.

(** The [try] block of [cmd_deploy]. *)
Definition deploy_or_update (args : arguments) (compose_content : string)
    (env_vars : list env_var) (endpoint_id : Z)
    (existing_stack : option stack) : M Z :=
  mutate args compose_content env_vars endpoint_id existing_stack ;;
  if negb (arg_no_validate args) then
    healthy <- validate_deployment endpoint_id (arg_stack_name args)
                                   default_timeout ;;
    if negb healthy then ret 1 else ret 0
  else ret 0.

Definition cmd_deploy (args : arguments) : M Z :=
  match files w (arg_compose_file args) with
  | None => ret 1
  | Some compose_content =>
      let env_vars := env_vars_of (arg_env args) in
      r <- try_except (get_endpoint_id (arg_endpoint args)) is_ValueError ;;
      match r with
      | inr _ => ret 1
      | inl endpoint_id =>
          stacks <- list_stacks ;;
          let existing_stack :=
            find_existing stacks (arg_stack_name args) endpoint_id in
          r <- try_except (deploy_or_update args compose_content env_vars
                                            endpoint_id existing_stack)
                          is_HTTPError ;;
          match r with
          | inl code => ret code
          | inr _ => ret 1
          end
      end
  end.

(** [args.yes or input(...).lower() == 'y']: the prompt is only shown
    without [--yes]. *)
Definition confirm (args : arguments) : M bool :=
  if arg_yes args then ret true
  else emit Input ;; ret (lower_is_y (input_reply w)).

(** The scan of [cmd_delete]: it returns at the first stack of that name,
    whatever the answer to the prompt. *)
Fixpoint delete_scan (args : arguments) (endpoint_id : Z)
    (stacks : list stack) : M Z :=
  match stacks with
  | [] => ret 1
  | stack :: rest =>
      if String.eqb (stack_Name stack) (arg_stack_name args) then
        yes <- confirm args ;;
        if yes then
          delete_stack (stack_Id stack) endpoint_id ;;
          ret 0
        else ret 0
      else delete_scan args endpoint_id rest
  end.

Definition cmd_delete (args : arguments) : M Z :=
  endpoint_id <- get_endpoint_id (arg_endpoint args) ;;
  stacks <- list_stacks ;;
  delete_scan args endpoint_id stacks.

(** [cmd_list], without its printing. *)
Definition cmd_list (args : arguments) : M Z :=
  stacks <- list_stacks ;;
  if is_empty stacks then ret 0 else ret 0.

Definition main (args : arguments) : M Z :=
  match arg_command args with
  | None => ret 1
  | Some cmd =>
      ok <- authenticate (arg_user args) (arg_password args) ;;
      if negb ok then ret 1
      else match cmd with
           | CmdList => cmd_list args
           | CmdDeploy => cmd_deploy args
           | CmdDelete => cmd_delete args
           end
  end.

End Client.


(** A run starts at some clock value with nothing polled or logged. *)
Definition initial (t0 : Z) : state := mkState t0 0 [].

(** ** Vocabulary of the specification *)

(** The health condition of one service: a replicated service runs at
    least its configured number of replicas, any other (global) service
    runs at least one task. *)
Definition converged (svc : service) : Prop :=
  match Replicated (mode_of svc) with
  | Some r => (desired_replicas r <= running_tasks svc)%nat
  | None => (0 < running_tasks svc)%nat
  end.

(** The same condition as a test. *)
Definition convergedb (svc : service) : bool :=
  match Replicated (mode_of svc) with
  | Some r => (desired_replicas r <=? running_tasks svc)%nat
  | None => (0 <? running_tasks svc)%nat
  end.

(** The polling interval of the validator. *)
Definition interval : Z := 5.

(** [ceil_div a b] is the least integer not below [a / b], for [0 < b]. *)
Definition ceil_div (a b : Z) : Z := (a + b - 1) / b.

(** [n] rounds of one service poll followed by one sleep of [interval]. *)
Definition poll_rounds (endpoint_id : Z) (stack_name : string) (n : nat)
  : list event :=
  List.concat (repeat [GET_services endpoint_id stack_name; Sleep interval] n).

(** The events of the validator. *)
Definition is_validation_event (e : event) : bool :=
  match e with
  | GET_services _ _ | Sleep _ => true
  | _ => false
  end.

Definition is_poll (e : event) : bool :=
  match e with
  | GET_services _ _ => true
  | _ => false
  end.

(** The request of the update branch. *)
Definition is_update (e : event) : bool :=
  match e with
  | PUT_update _ _ _ _ _ => true
  | _ => false
  end.

(** The requests of the create branch. *)
Definition is_create (e : event) : bool :=
  match e with
  | GET_swarm _ | POST_create _ _ _ _ _ => true
  | _ => false
  end.

(** How often a log polled the service list. *)
Definition poll_count (l : list event) : nat :=
  List.length (filter is_poll l).

(** A stack of the requested name on the resolved endpoint. *)
Definition same_name_and_endpoint (stack_name : string) (endpoint_id : Z)
    (s : stack) : Prop :=
  stack_Name s = stack_name /\ stack_EndpointId s = Some endpoint_id.

(** The answer to the mutation [cmd_deploy] chooses: of the update, or of
    the cluster identity lookup and the create that follows it. *)
Definition mutation_resp (w : world) (args : arguments) (content : string)
    (env_vars : list env_var) (endpoint_id : Z)
    (existing_stack : option stack) : response unit :=
  match existing_stack with
  | Some existing =>
      update_resp w (stack_Id existing) endpoint_id content env_vars true
  | None =>
      match swarm_resp w endpoint_id with
      | Ok swarm_id =>
          create_resp w endpoint_id (arg_stack_name args) content swarm_id
                      env_vars
      | HttpFail => HttpFail
      | TransportFail => TransportFail
      end
  end.

(** The requests of that mutation. *)
Definition mutation_events (w : world) (args : arguments) (content : string)
    (env_vars : list env_var) (endpoint_id : Z)
    (existing_stack : option stack) : list event :=
  match existing_stack with
  | Some existing =>
      [PUT_update (stack_Id existing) endpoint_id content env_vars true]
  | None =>
      GET_swarm endpoint_id ::
      match swarm_resp w endpoint_id with
      | Ok swarm_id =>
          [POST_create endpoint_id (arg_stack_name args) content swarm_id
                       env_vars]
      | _ => []
      end
  end.

(** What a response makes of a call. *)
Definition outcome {A} (r : response A) : result A :=
  match r with
  | Ok body => Ret body
  | HttpFail => Raise HTTPError
  | TransportFail => Raise RequestException
  end.

(** A deploy run got as far as the mutation: authenticated, descriptor
    [content] read, endpoint [endpoint_id] resolved, [stacks] listed. *)
Definition reaches_mutation (w : world) (args : arguments) (content : string)
    (endpoint_id : Z) (stacks : list stack) : Prop :=
  arg_command args = Some CmdDeploy /\
  auth_resp w (arg_user args) (arg_password args) = Ok tt /\
  files w (arg_compose_file args) = Some content /\
  (exists endpoints, endpoints_resp w = Ok endpoints /\
     select_endpoint endpoints (arg_endpoint args) = inl endpoint_id) /\
  stacks_resp w = Ok stacks.


(** The state a service poll leaves: the clock has advanced by the time
    the poll took. *)
Definition after_poll (w : world) (endpoint_id : Z) (stack_name : string)
    (st : state) : state :=
  mkState (now st + Z.of_nat (poll_duration w (polls st))) (S (polls st))
          (log st ++ [GET_services endpoint_id stack_name]).

(** The state the sleep between two polls leaves. *)
Definition after_sleep (st : state) : state :=
  mkState (now st + interval) (polls st) (log st ++ [Sleep interval]).

(** A poll result on which the validator goes on waiting: no service yet,
    or some service short of its health condition. *)
Definition keeps_waiting (services : list service) : bool :=
  is_empty services || negb (forallb convergedb services).

(** The state in which [main] starts the validation of a deploy run that
    began in [st]: the requests before it take no part in the clock the
    validator reads. *)
Definition validation_start (w : world) (args : arguments) (content : string)
    (endpoint_id : Z) (stacks : list stack) (st : state) : state :=
  mkState (now st) (polls st)
    (log st ++
     POST_auth (arg_user args) (arg_password args) :: GET_endpoints ::
     GET_stacks ::
     mutation_events w args content (env_vars_of (arg_env args)) endpoint_id
       (find_existing stacks (arg_stack_name args) endpoint_id)).

(** What the [try] block of [cmd_deploy] and its handler make of the
    validator's result. *)
Definition validated (r : result bool * state) : result Z * state :=
  match r with
  | (Ret true, s) => (Ret 0, s)
  | (Ret false, s) => (Ret 1, s)
  | (Raise HTTPError, s) => (Ret 1, s)
  | (Raise e, s) => (Raise e, s)
  | (Diverge, s) => (Diverge, s)
  end.

(** [args.yes or input(...).lower() == 'y'] as a value. *)
Definition confirmed (w : world) (args : arguments) : bool :=
  arg_yes args || lower_is_y (input_reply w).

(** ** Mock environments *)

(** A server on which every request succeeds: it lists [endpoints] and
    [stacks], answers the [k]-th service poll with [services k] after
    [duration] time units, and holds one descriptor file. *)
Definition mock (endpoints : list endpoint) (stacks : list stack)
    (services : nat -> list service) (duration : nat) : world :=
  mkWorld
    (fun path => if String.eqb path "docker-compose.yml"
                 then Some "version:1" else None)
    "n"
    (fun _ _ => Ok tt)
    (Ok endpoints)
    (fun _ => Ok "swarm-1")
    (Ok stacks)
    (fun _ _ _ _ _ => Ok tt)
    (fun _ _ _ _ _ => Ok tt)
    (fun _ _ => Ok tt)
    (fun k _ _ => Ok (services k))
    (fun _ => duration).

(** The same server, except that it refuses every create and update. *)
Definition refuse_mutations (w : world) : world :=
  mkWorld (files w) (input_reply w) (auth_resp w) (endpoints_resp w)
          (swarm_resp w) (stacks_resp w)
          (fun _ _ _ _ _ => HttpFail) (fun _ _ _ _ _ => HttpFail)
          (delete_resp w) (services_resp w) (poll_duration w).

Definition replicated_service (name : string) (desired running : nat)
  : service :=
  mkService name (Some (mkMode (Some (mkReplicated (Some desired)))))
            (Some (mkStatus (Some running))).

Definition global_service (name : string) (running : nat) : service :=
  mkService name (Some (mkMode None)) (Some (mkStatus (Some running))).

(** A replicated service whose specification has no replica count. *)
Definition unsized_service (name : string) (running : nat) : service :=
  mkService name (Some (mkMode (Some (mkReplicated None))))
            (Some (mkStatus (Some running))).

Definition prod : endpoint := mkEndpoint 1 "prod" (Some 2).
Definition edge : endpoint := mkEndpoint 2 "edge" (Some 4).
Definition staging : endpoint := mkEndpoint 3 "staging" (Some 1).

Definition deploy_args (endpoint : option string) : arguments :=
  mkArgs (Some CmdDeploy) "admin" "secret" endpoint "app"
         "docker-compose.yml" None false false.

Definition delete_args (endpoint : option string) (yes : bool) : arguments :=
  mkArgs (Some CmdDelete) "admin" "secret" endpoint "app" "" None false yes.


Definition running (k : nat) : list service :=
  [replicated_service "web" 2 2; global_service "agent" 1].

(** ** The rest of the script *)

(** [base_url.rstrip('/')] of [PortainerClient.__init__]: the text without
    the slashes at its end. *)
Fixpoint rstrip_slash (s : string) : string :=
  match s with
  | EmptyString => EmptyString
  | String c rest =>
      match rstrip_slash rest with
      | EmptyString =>
          if Ascii.eqb c "/"%char then EmptyString
          else String c EmptyString
      | String d kept => String c (String d kept)
      end
  end.

(** The URL of a request, [f"{self.base_url}{path}"]. *)
Definition api_url (base_url path : string) : string :=
  (rstrip_slash base_url ++ path)%string.

(** A run of [n] slashes. *)
Fixpoint slashes (n : nat) : string :=
  match n with
  | O => EmptyString
  | S n' => String "/"%char (slashes n')
  end.

(** The last character of a text. *)
Fixpoint last_char (s : string) : option ascii :=
  match s with
  | EmptyString => None
  | String c EmptyString => Some c
  | String _ rest => last_char rest
  end.

(** ['=' in env]. *)
Fixpoint has_eq (env : string) : bool :=
  match env with
  | EmptyString => false
  | String c rest => Ascii.eqb c "="%char || has_eq rest
  end.

(** The request of the delete command. *)
Definition is_delete (e : event) : bool :=
  match e with
  | DELETE_stack _ _ => true
  | _ => false
  end.

(** The requests that change a stack on the server. *)
Definition is_write (e : event) : bool :=
  match e with
  | POST_create _ _ _ _ _ | PUT_update _ _ _ _ _ | DELETE_stack _ _ => true
  | _ => false
  end.

(** The requests [cmd_deploy] may make. *)
Definition deploy_event (e : event) : bool :=
  match e with
  | GET_endpoints | GET_stacks | GET_swarm _ | POST_create _ _ _ _ _
  | PUT_update _ _ _ _ _ | GET_services _ _ | Sleep _ => true
  | _ => false
  end.

(** The requests [cmd_delete] may make. *)
Definition delete_event (e : event) : bool :=
  match e with
  | GET_endpoints | GET_stacks | Input | DELETE_stack _ _ => true
  | _ => false
  end.

(** The request [cmd_list] may make. *)
Definition list_event (e : event) : bool :=
  match e with
  | GET_stacks => true
  | _ => false
  end.

(** How many events of a log pass a test. *)
Definition occurrences (p : event -> bool) (l : list event) : nat :=
  List.length (filter p l).

(** A computation only adds to the log, and only events that pass [p]. *)
Definition only {A} (p : event -> bool) (m : M A) : Prop :=
  forall st, exists evs,
    log (snd (m st)) = log st ++ evs /\ forallb p evs = true.

(** The time [k] rounds of poll and sleep take, from the [p]-th poll of the
    run on. *)
Fixpoint rounds_time (w : world) (p k : nat) : Z :=
  match k with
  | O => 0
  | S k' => Z.of_nat (poll_duration w p) + interval + rounds_time w (S p) k'
  end.

(** The first stack of a name, as the scan of [cmd_delete] meets it. *)
Definition first_of_name (stacks : list stack) (stack_name : string)
  : option stack :=
  find (fun s => String.eqb (stack_Name s) stack_name) stacks.

(** A server like [w] whose endpoint listing answers [r]. *)
Definition with_endpoints (w : world) (r : response (list endpoint))
  : world :=
  mkWorld (files w) (input_reply w) (auth_resp w) r (swarm_resp w)
          (stacks_resp w) (create_resp w) (update_resp w) (delete_resp w)
          (services_resp w) (poll_duration w).

(** A server like [w] whose stack listing answers [r]. *)
Definition with_stacks (w : world) (r : response (list stack)) : world :=
  mkWorld (files w) (input_reply w) (auth_resp w) (endpoints_resp w)
          (swarm_resp w) r (create_resp w) (update_resp w) (delete_resp w)
          (services_resp w) (poll_duration w).

(** A server like [w] whose service polls all answer [r]. *)
Definition with_polls (w : world) (r : response (list service)) : world :=
  mkWorld (files w) (input_reply w) (auth_resp w) (endpoints_resp w)
          (swarm_resp w) (stacks_resp w) (create_resp w) (update_resp w)
          (delete_resp w) (fun _ _ _ => r) (poll_duration w).

(** A server like [w] that rejects the credentials. *)
Definition with_auth (w : world) (r : response unit) : world :=
  mkWorld (files w) (input_reply w) (fun _ _ => r) (endpoints_resp w)
          (swarm_resp w) (stacks_resp w) (create_resp w) (update_resp w)
          (delete_resp w) (services_resp w) (poll_duration w).

(** A stack that gets its second replica at the third poll. *)
Definition settling (k : nat) : list service :=
  if (k <? 2)%nat then [replicated_service "web" 2 1]
  else [replicated_service "web" 2 2].

(** ** Lists: the first element that passes a test *)

Section First.

Context {A : Type} (p : A -> bool).

Lemma find_first (pre post : list A) (x : A) :
  p x = true -> (forall y, In y pre -> p y = false) ->
  find p (pre ++ x :: post) = Some x.
Proof.
  intros Hx. induction pre as [|y pre IH]; intros Hpre; simpl.
  - now rewrite Hx.
  - rewrite (Hpre y (or_introl eq_refl)). apply IH.
    intros z Hz. apply Hpre. now right.
Qed.

Lemma find_split (l : list A) (x : A) :
  find p l = Some x ->
  exists pre post, l = pre ++ x :: post /\ p x = true /\
                   forall y, In y pre -> p y = false.
Proof.
  induction l as [|y l IH]; simpl; [discriminate|].
  destruct (p y) eqn:Hy.
  - intros [= ->]. exists [], l. repeat split; auto. intros z [].
  - intros H. destruct (IH H) as (pre & post & -> & Hx & Hpre).
    exists (y :: pre), post. repeat split; auto.
    intros z [<-|Hz]; auto.
Qed.

Lemma find_none_iff (l : list A) :
  find p l = None <-> forall y, In y l -> p y = false.
Proof.
  split.
  - apply find_none.
  - induction l as [|y l IH]; simpl; intros H; [reflexivity|].
    rewrite (H y (or_introl eq_refl)). apply IH. intros z Hz. apply H. now right.
Qed.

End First.

(** ** Endpoint resolution *)

Lemma first_named_find (endpoints : list endpoint) (name : string) :
  first_named endpoints name =
  option_map ep_Id (find (fun ep => String.eqb (ep_Name ep) name) endpoints).
Proof.
  induction endpoints as [|ep rest IH]; simpl; [reflexivity|].
  destruct (String.eqb (ep_Name ep) name); [reflexivity|exact IH].
Qed.

Lemma first_docker_or_swarm_find (endpoints : list endpoint) :
  first_docker_or_swarm endpoints =
  option_map ep_Id (find (fun ep => in_1_2 (ep_Type ep)) endpoints).
Proof.
  induction endpoints as [|ep rest IH]; simpl; [reflexivity|].
  destruct (in_1_2 (ep_Type ep)); [reflexivity|exact IH].
Qed.

Lemma in_1_2_true (t : option Z) :
  in_1_2 t = true <-> t = Some 1 \/ t = Some 2.
Proof.
  destruct t as [t|]; simpl.
  - rewrite orb_true_iff, !Z.eqb_eq. split; intros [H|H]; try (inversion H); subst; auto.
  - split; [discriminate|intros [H|H]; discriminate].
Qed.

Lemma in_1_2_false (t : option Z) :
  in_1_2 t = false <-> t <> Some 1 /\ t <> Some 2.
Proof.
  rewrite <- not_true_iff_false, in_1_2_true. tauto.
Qed.

(** The run of [get_endpoint_id] on a server that lists [endpoints]. *)
Lemma get_endpoint_id_run (w : world) (endpoints : list endpoint)
    (endpoint_name : option string) (st : state) :
  endpoints_resp w = Ok endpoints ->
  get_endpoint_id w endpoint_name st =
  (match select_endpoint endpoints endpoint_name with
   | inl id => Ret id
   | inr why => Raise (ValueError why)
   end,
   mkState (now st) (polls st) (log st ++ [GET_endpoints])).
Proof.
  intros H. unfold get_endpoint_id, get_endpoints, request, bind, emit.
  rewrite H. simpl.
  destruct (select_endpoint endpoints endpoint_name); reflexivity.
Qed.

(** C5, as stated, fails for the empty name: it matches no entry, and the
    resolver returns the default endpoint instead of raising. *)
Lemma named_resolution_counterexample :
  (forall ep, In ep [prod] -> ep_Name ep <> "") /\
  fst (get_endpoint_id (mock [prod] [] running 0) (Some "") (initial 0))
  = Ret 1 /\
  forall name,
    fst (get_endpoint_id (mock [prod] [] running 0) (Some "") (initial 0))
    <> Raise (ValueError (NotFound name)).
Proof.
  split; [|split].
  - intros ep [<-|[]]. discriminate.
  - reflexivity.
  - intros name. discriminate.
Qed.

(** C5 (amended): for every endpoint list and every non-empty requested
    name, resolution raises the not-found error when no entry has exactly
    that name, whatever the types of the entries (no fall-back to a default
    endpoint), and returns the identifier of the first entry of that name
    when there is one. *)
Theorem named_resolution (w : world) (endpoints : list endpoint)
    (name : string) (st : state) :
  endpoints_resp w = Ok endpoints ->
  name <> "" ->
  ((forall ep, In ep endpoints -> ep_Name ep <> name) ->
   fst (get_endpoint_id w (Some name) st) = Raise (ValueError (NotFound name)))
  /\
  (forall pre ep post,
     endpoints = pre ++ ep :: post ->
     ep_Name ep = name ->
     (forall x, In x pre -> ep_Name x <> name) ->
     fst (get_endpoint_id w (Some name) st) = Ret (ep_Id ep)).
Proof.
  intros Hw Hname. rewrite (get_endpoint_id_run w endpoints _ st Hw). simpl.
  destruct name as [|c name]; [congruence|]. simpl.
  rewrite first_named_find. split.
  - intros Hnone.
    replace (find _ endpoints) with (@None endpoint); [reflexivity|].
    symmetry. apply find_none_iff. intros ep Hep.
    apply String.eqb_neq. now apply Hnone.
  - intros pre ep post -> Hep Hpre.
    rewrite find_first; [reflexivity| |].
    + now apply String.eqb_eq.
    + intros x Hx. apply String.eqb_neq. now apply Hpre.
Qed.

Lemma named_resolution_witness :
  fst (get_endpoint_id (mock [prod; edge; staging] [] running 0)
                       (Some "backup") (initial 0))
  = Raise (ValueError (NotFound "backup"))
  /\
  fst (get_endpoint_id (mock [prod; edge; staging] [] running 0)
                       (Some "edge") (initial 0))
  = Ret 2.
Proof.
  split.
  - apply (named_resolution (mock [prod; edge; staging] [] running 0)
             [prod; edge; staging] "backup" (initial 0) eq_refl).
    + discriminate.
    + intros ep [<-|[<-|[<-|[]]]]; discriminate.
  - apply (proj2 (named_resolution (mock [prod; edge; staging] [] running 0)
             [prod; edge; staging] "edge" (initial 0) eq_refl
             ltac:(discriminate)) [prod] edge [staging] eq_refl eq_refl).
    intros x [<-|[]]. discriminate.
Defined.

(** C6: for every endpoint list, without an endpoint name resolution
    returns the identifier of the first endpoint of type 1 or 2, and raises
    the none-available error when the list is empty or has no endpoint of
    those types. *)
Theorem default_resolution (w : world) (endpoints : list endpoint)
    (st : state) :
  endpoints_resp w = Ok endpoints ->
  (forall pre ep post,
     endpoints = pre ++ ep :: post ->
     ep_Type ep = Some 1 \/ ep_Type ep = Some 2 ->
     (forall x, In x pre -> ep_Type x <> Some 1 /\ ep_Type x <> Some 2) ->
     fst (get_endpoint_id w None st) = Ret (ep_Id ep))
  /\
  ((forall x, In x endpoints -> ep_Type x <> Some 1 /\ ep_Type x <> Some 2) ->
   fst (get_endpoint_id w None st) = Raise (ValueError NoneAvailable))
  /\
  (endpoints = [] ->
   fst (get_endpoint_id w None st) = Raise (ValueError NoneAvailable)).
Proof.
  intros Hw. rewrite (get_endpoint_id_run w endpoints _ st Hw). simpl.
  rewrite first_docker_or_swarm_find.
  assert (Hnone : (forall x, In x endpoints ->
                     ep_Type x <> Some 1 /\ ep_Type x <> Some 2) ->
                  find (fun ep => in_1_2 (ep_Type ep)) endpoints = None).
  { intros H. apply find_none_iff. intros x Hx. apply in_1_2_false. auto. }
  split; [|split].
  - intros pre ep post -> Hep Hpre.
    rewrite find_first; [reflexivity| |].
    + now apply in_1_2_true.
    + intros x Hx. apply in_1_2_false. auto.
  - intros H. now rewrite (Hnone H).
  - intros ->. reflexivity.
Qed.

Lemma default_resolution_witness :
  fst (get_endpoint_id (mock [edge; staging; prod] [] running 0) None
                       (initial 0))
  = Ret 3
  /\
  fst (get_endpoint_id (mock [edge] [] running 0) None (initial 0))
  = Raise (ValueError NoneAvailable).
Proof.
  split.
  - apply (proj1 (default_resolution (mock [edge; staging; prod] [] running 0)
                    [edge; staging; prod] (initial 0) eq_refl)
             [edge] staging [prod] eq_refl (or_introl eq_refl)).
    intros x [<-|[]]. split; discriminate.
  - apply (proj1 (proj2 (default_resolution (mock [edge] [] running 0)
                           [edge] (initial 0) eq_refl))).
    intros x [<-|[]]. split; discriminate.
Defined.

(** ** Health evaluation of one poll *)

Lemma convergedb_iff (svc : service) :
  convergedb svc = true <-> converged svc.
Proof.
  unfold convergedb, converged.
  destruct (Replicated (mode_of svc)) as [r|].
  - apply Nat.leb_le.
  - apply Nat.ltb_lt.
Qed.

Lemma check_service_flag (svc : service) (all_healthy : bool) :
  check_service svc all_healthy = convergedb svc && all_healthy.
Proof.
  unfold check_service, convergedb.
  destruct (Replicated (mode_of svc)) as [r|].
  - rewrite Nat.ltb_antisym. now destruct (_ <=? _)%nat.
  - destruct (running_tasks svc); reflexivity.
Qed.

Lemma check_services_flag (services : list service) (all_healthy : bool) :
  check_services services all_healthy
  = all_healthy && forallb convergedb services.
Proof.
  revert all_healthy.
  induction services as [|svc rest IH]; intros b; simpl.
  - now rewrite andb_true_r.
  - rewrite IH, check_service_flag.
    now destruct (convergedb svc), b.
Qed.

(** C9: a replicated service whose specification has no replica count has
    a desired count of 0 and never clears [all_healthy], whatever its
    running-task count, zero included. *)
Theorem missing_replicas_is_healthy (svc : service) (r : replicated_mode)
    (all_healthy : bool) :
  Replicated (mode_of svc) = Some r ->
  Replicas r = None ->
  desired_replicas r = 0%nat
  /\ check_service svc all_healthy = all_healthy
  /\ converged svc.
Proof.
  intros Hr Hn. unfold check_service, converged, desired_replicas.
  rewrite Hr, Hn. simpl. repeat split. lia.
Qed.

Lemma missing_replicas_is_healthy_witness :
  desired_replicas (mkReplicated None) = 0%nat
  /\ check_service (unsized_service "web" 0) true = true
  /\ converged (unsized_service "web" 0).
Proof.
  exact (missing_replicas_is_healthy (unsized_service "web" 0)
           (mkReplicated None) true eq_refl eq_refl).
Defined.

(** ** The polling loop *)

Section Loop.

Variable w : world.
Variables (endpoint_id : Z) (stack_name : string) (timeout start_time : Z).

Local Abbreviation loop fuel :=
  (validate_loop w fuel endpoint_id stack_name timeout start_time).

(** The check at the head of the loop fails: the loop is left. *)
Lemma validate_loop_expired (fuel : nat) (st : state) :
  timeout <= now st - start_time ->
  loop (S fuel) st = (Ret false, st).
Proof.
  intros H. simpl. unfold bind, time_time.
  destruct (Z.ltb_spec (now st - start_time) timeout); [lia|reflexivity].
Qed.

(** One iteration whose poll is answered with [services]. *)
Lemma validate_loop_step (fuel : nat) (st : state) (services : list service) :
  now st - start_time < timeout ->
  services_resp w (polls st) endpoint_id stack_name = Ok services ->
  loop (S fuel) st =
  if keeps_waiting services
  then loop fuel (after_sleep (after_poll w endpoint_id stack_name st))
  else (Ret true, after_poll w endpoint_id stack_name st).
Proof.
  intros Ht Hs. simpl. unfold bind at 1, time_time.
  destruct (Z.ltb_spec (now st - start_time) timeout); [|lia].
  unfold bind at 1, get_stack_services. rewrite Hs.
  fold (after_poll w endpoint_id stack_name st).
  unfold keeps_waiting. destruct services as [|svc rest].
  - reflexivity.
  - cbn [is_empty orb]. rewrite check_services_flag. cbn [andb].
    destruct (forallb convergedb (svc :: rest)); reflexivity.
Qed.

(** One iteration whose poll fails: the exception leaves the loop. *)
Lemma validate_loop_poll_fails (fuel : nat) (st : state) (e : exn) :
  now st - start_time < timeout ->
  outcome (services_resp w (polls st) endpoint_id stack_name) = Raise e ->
  loop (S fuel) st = (Raise e, after_poll w endpoint_id stack_name st).
Proof.
  intros Ht Hs. simpl. unfold bind at 1, time_time.
  destruct (Z.ltb_spec (now st - start_time) timeout); [|lia].
  unfold bind at 1, get_stack_services.
  fold (after_poll w endpoint_id stack_name st).
  destruct (services_resp w (polls st) endpoint_id stack_name) as [b| |];
    simpl in Hs; inversion Hs; reflexivity.
Qed.

(** The three ways one iteration can go. *)
Lemma validate_loop_cases (fuel : nat) (st : state) :
  loop (S fuel) st = (Ret false, st) /\ timeout <= now st - start_time
  \/ loop (S fuel) st
     = loop fuel (after_sleep (after_poll w endpoint_id stack_name st))
     /\ now st - start_time < timeout
  \/ (exists r, loop (S fuel) st
                = (r, after_poll w endpoint_id stack_name st)
                /\ r <> Diverge /\ r <> Ret false
                /\ now st - start_time < timeout).
Proof.
  destruct (Z_lt_le_dec (now st - start_time) timeout) as [Ht|Ht].
  - destruct (services_resp w (polls st) endpoint_id stack_name)
      as [services| |] eqn:E.
    + rewrite (validate_loop_step fuel st services Ht E).
      destruct (keeps_waiting services).
      * right. left. now split.
      * right. right. exists (Ret true).
        repeat split; try discriminate; auto.
    + right. right. exists (Raise HTTPError).
      repeat split; try discriminate; auto.
      apply validate_loop_poll_fails; [exact Ht|now rewrite E].
    + right. right. exists (Raise RequestException).
      repeat split; try discriminate; auto.
      apply validate_loop_poll_fails; [exact Ht|now rewrite E].
  - left. split; [now apply validate_loop_expired|exact Ht].
Qed.

(** Enough fuel: the loop returns or raises. *)
Lemma validate_loop_total (fuel : nat) (st : state) :
  (Z.to_nat (timeout - (now st - start_time)) < fuel)%nat ->
  fst (loop fuel st) <> Diverge.
Proof.
  revert st. induction fuel as [|fuel IH]; intros st Hfuel; [lia|].
  destruct (validate_loop_cases fuel st) as [[E _]|[[E Ht]|(r & E & Hr & Hr' & Ht)]];
    rewrite E.
  - discriminate.
  - apply IH. unfold after_sleep, after_poll, interval. simpl. lia.
  - exact Hr.
Qed.

(** What the loop does to the state: it only adds polls and sleeps to the
    log, counts its polls, and the clock does not go back. *)
Lemma validate_loop_effects (fuel : nat) (st : state) :
  exists evs,
    log (snd (loop fuel st)) = log st ++ evs
    /\ forallb is_validation_event evs = true
    /\ polls (snd (loop fuel st)) = (polls st + poll_count evs)%nat
    /\ now st <= now (snd (loop fuel st)).
Proof.
  revert st. induction fuel as [|fuel IH]; intros st.
  - exists []. unfold poll_count. simpl. rewrite app_nil_r.
    repeat split; lia.
  - destruct (validate_loop_cases fuel st) as [[E _]|[[E Ht]|(r & E & Hr & Hr' & Ht)]];
      rewrite E; unfold poll_count.
    + exists []. simpl. rewrite app_nil_r. repeat split; lia.
    + destruct (IH (after_sleep (after_poll w endpoint_id stack_name st)))
        as (evs & Hlog & Hev & Hpolls & Hnow).
      exists (GET_services endpoint_id stack_name :: Sleep interval :: evs).
      unfold after_sleep, after_poll, interval in *. simpl in *.
      split; [rewrite Hlog, <- !app_assoc; reflexivity|].
      split; [exact Hev|].
      split; [rewrite Hpolls; unfold poll_count; simpl; lia|lia].
    + exists [GET_services endpoint_id stack_name]. simpl.
      repeat split; lia.
Qed.


(** However long the polls take, [r] rounds of sleep cover what is left
    of the timeout, so the loop polls at most [r] times. *)
Lemma validate_loop_poll_bound (fuel r : nat) (st : state) :
  timeout - (now st - start_time) <= interval * Z.of_nat r ->
  (polls (snd (loop fuel st)) <= polls st + r)%nat.
Proof.
  revert r st. induction fuel as [|fuel IH]; intros r st Hr.
  - simpl. lia.
  - destruct (validate_loop_cases fuel st)
      as [[E _]|[[E Ht]|(x & E & _ & _ & Ht)]]; rewrite E; unfold interval in *.
    + simpl. lia.
    + destruct r as [|r]; [lia|].
      set (st' := after_sleep (after_poll w endpoint_id stack_name st)).
      assert (Hr' : timeout - (now st' - start_time) <= 5 * Z.of_nat r)
        by (unfold st', after_sleep, after_poll, interval; cbn [now]; lia).
      apply (IH r st') in Hr'.
      replace (polls st') with (S (polls st)) in Hr' by reflexivity. lia.
    + destruct r as [|r]; [lia|]. simpl. lia.
Qed.




End Loop.



(** ** The validator *)

Lemma validate_deployment_loop (w : world) (endpoint_id : Z)
    (stack_name : string) (timeout : Z) (st : state) :
  validate_deployment w endpoint_id stack_name timeout st =
  validate_loop w (S (Z.to_nat timeout)) endpoint_id stack_name timeout
                (now st) st.
Proof. reflexivity. Qed.

(** The validator always ends: it returns a verdict or raises. *)
Lemma validate_deployment_total (w : world) (endpoint_id : Z)
    (stack_name : string) (timeout : Z) (st : state) :
  fst (validate_deployment w endpoint_id stack_name timeout st) <> Diverge.
Proof.
  rewrite validate_deployment_loop. apply validate_loop_total. lia.
Qed.


Lemma validate_deployment_effects (w : world) (endpoint_id : Z)
    (stack_name : string) (timeout : Z) (st : state) :
  exists evs,
    log (snd (validate_deployment w endpoint_id stack_name timeout st))
    = log st ++ evs
    /\ forallb is_validation_event evs = true
    /\ polls (snd (validate_deployment w endpoint_id stack_name timeout st))
       = (polls st + poll_count evs)%nat.
Proof.
  rewrite validate_deployment_loop.
  destruct (validate_loop_effects w endpoint_id stack_name timeout (now st)
              (S (Z.to_nat timeout)) st) as (evs & H1 & H2 & H3 & _).
  exists evs. auto.
Qed.


Lemma converged_stops_waiting (services : list service) :
  services <> [] ->
  (forall svc, In svc services -> converged svc) ->
  keeps_waiting services = false.
Proof.
  intros Hne Hall. unfold keeps_waiting.
  destruct services as [|svc rest]; [congruence|]. cbn [is_empty orb].
  replace (forallb convergedb (svc :: rest)) with true; [reflexivity|].
  symmetry. apply forallb_forall. intros x Hx.
  apply convergedb_iff. now apply Hall.
Qed.

Lemma ceil_div_interval (timeout : Z) :
  0 < timeout ->
  0 < ceil_div timeout interval <= timeout
  /\ timeout <= interval * ceil_div timeout interval < timeout + interval.
Proof.
  unfold ceil_div, interval. intros H.
  pose proof (Z.div_mod (timeout + 5 - 1) 5 ltac:(lia)) as E.
  pose proof (Z.mod_pos_bound (timeout + 5 - 1) 5 ltac:(lia)) as B.
  lia.
Qed.


(** C10: with a timeout of 0 or less the validator returns [False] at
    once: the state is unchanged, so no service list was fetched and
    nothing slept, whatever the services would have answered. *)
Theorem nonpositive_timeout_fails (w : world) (endpoint_id : Z)
    (stack_name : string) (timeout : Z) (st : state) :
  timeout <= 0 ->
  validate_deployment w endpoint_id stack_name timeout st = (Ret false, st).
Proof.
  intros H. rewrite validate_deployment_loop.
  apply validate_loop_expired. lia.
Qed.

Lemma nonpositive_timeout_fails_witness :
  (forall svc, In svc (running 0) -> converged svc) /\
  validate_deployment (mock [prod] [] running 0) 1 "app" 0 (initial 0)
  = (Ret false, initial 0).
Proof.
  split.
  - intros svc [<-|[<-|[]]]; vm_compute; lia.
  - apply (nonpositive_timeout_fails (mock [prod] [] running 0) 1 "app" 0
             (initial 0)).
    lia.
Defined.

(** C4: with a positive timeout, when the first poll returns a non-empty
    service list in which every service meets its health condition, the
    validator returns [True] after that one poll, and its log gains the
    poll and no sleep. *)
Theorem converged_on_first_poll (w : world) (endpoint_id : Z)
    (stack_name : string) (timeout : Z) (st : state)
    (services : list service) :
  0 < timeout ->
  services <> [] ->
  services_resp w (polls st) endpoint_id stack_name = Ok services ->
  (forall svc, In svc services -> converged svc) ->
  validate_deployment w endpoint_id stack_name timeout st =
  (Ret true,
   mkState (now st + Z.of_nat (poll_duration w (polls st))) (S (polls st))
           (log st ++ [GET_services endpoint_id stack_name])).
Proof.
  intros Ht Hne Hs Hall. rewrite validate_deployment_loop.
  rewrite (validate_loop_step w endpoint_id stack_name timeout (now st)
             (Z.to_nat timeout) st services) by (auto; lia).
  now rewrite converged_stops_waiting.
Qed.

Lemma converged_on_first_poll_witness :
  validate_deployment (mock [prod] [] running 0) 1 "app" 120 (initial 0)
  = (Ret true, mkState 0 1 [GET_services 1 "app"]).
Proof.
  apply (converged_on_first_poll (mock [prod] [] running 0) 1 "app" 120
           (initial 0) (running 0)).
  - lia.
  - discriminate.
  - reflexivity.
  - intros svc [<-|[<-|[]]]; vm_compute; lia.
Defined.




(** ** Deploy *)

Lemma or_empty_id (env_vars : list env_var) : or_empty env_vars = env_vars.
Proof. now destruct env_vars. Qed.

Lemma find_existing_find (stacks : list stack) (stack_name : string)
    (endpoint_id : Z) :
  find_existing stacks stack_name endpoint_id =
  find (fun s => String.eqb (stack_Name s) stack_name
                 && get_eq (stack_EndpointId s) endpoint_id) stacks.
Proof.
  induction stacks as [|s rest IH]; simpl; [reflexivity|].
  now rewrite IH.
Qed.

Lemma same_name_and_endpoint_test (stack_name : string) (endpoint_id : Z)
    (s : stack) :
  String.eqb (stack_Name s) stack_name
  && get_eq (stack_EndpointId s) endpoint_id = true
  <-> same_name_and_endpoint stack_name endpoint_id s.
Proof.
  unfold same_name_and_endpoint, get_eq.
  rewrite andb_true_iff, String.eqb_eq.
  destruct (stack_EndpointId s) as [e|].
  - rewrite Z.eqb_eq. split; intros [H1 H2]; split; congruence.
  - split; intros [H1 H2]; discriminate.
Qed.

(** The scan finds the first stack of that name on that endpoint. *)
Lemma find_existing_first (stacks pre post : list stack) (s : stack)
    (stack_name : string) (endpoint_id : Z) :
  stacks = pre ++ s :: post ->
  same_name_and_endpoint stack_name endpoint_id s ->
  (forall x, In x pre -> ~ same_name_and_endpoint stack_name endpoint_id x) ->
  find_existing stacks stack_name endpoint_id = Some s.
Proof.
  intros -> Hs Hpre. rewrite find_existing_find. apply find_first.
  - now apply same_name_and_endpoint_test.
  - intros x Hx. apply not_true_iff_false.
    rewrite same_name_and_endpoint_test. now apply Hpre.
Qed.

Lemma find_existing_some (stacks : list stack) (s : stack)
    (stack_name : string) (endpoint_id : Z) :
  find_existing stacks stack_name endpoint_id = Some s ->
  In s stacks /\ same_name_and_endpoint stack_name endpoint_id s.
Proof.
  rewrite find_existing_find. intros H.
  apply find_some in H. destruct H as [Hin Hs].
  split; [exact Hin|]. now apply same_name_and_endpoint_test.
Qed.

Lemma find_existing_none (stacks : list stack) (stack_name : string)
    (endpoint_id : Z) :
  find_existing stacks stack_name endpoint_id = None <->
  forall s, In s stacks -> ~ same_name_and_endpoint stack_name endpoint_id s.
Proof.
  rewrite find_existing_find, find_none_iff.
  split; intros H s Hs.
  - rewrite <- same_name_and_endpoint_test, (H s Hs). discriminate.
  - apply not_true_iff_false. rewrite same_name_and_endpoint_test.
    now apply H.
Qed.

(** The run of the mutation [cmd_deploy] chooses. *)
Lemma mutate_run (w : world) (args : arguments) (content : string)
    (env_vars : list env_var) (endpoint_id : Z)
    (existing_stack : option stack) (st : state) :
  mutate w args content env_vars endpoint_id existing_stack st =
  (outcome (mutation_resp w args content env_vars endpoint_id existing_stack),
   mkState (now st) (polls st)
     (log st ++ mutation_events w args content env_vars endpoint_id
                                existing_stack)).
Proof.
  unfold mutate, mutation_resp, mutation_events.
  destruct existing_stack as [existing|].
  - unfold update_stack, request, bind, emit. rewrite or_empty_id.
    now destruct (update_resp w _ _ _ _ _).
  - unfold deploy_stack, get_swarm_id, request, bind, emit.
    rewrite or_empty_id. simpl.
    destruct (swarm_resp w endpoint_id) as [swarm_id| |]; simpl;
      try reflexivity.
    rewrite <- app_assoc.
    now destruct (create_resp w _ _ _ _ _).
Qed.

(** [cmd_deploy] once the descriptor is read, the endpoint resolved and the
    stacks listed. *)
Lemma cmd_deploy_run (w : world) (args : arguments) (content : string)
    (endpoints : list endpoint) (endpoint_id : Z) (stacks : list stack)
    (st : state) :
  files w (arg_compose_file args) = Some content ->
  endpoints_resp w = Ok endpoints ->
  select_endpoint endpoints (arg_endpoint args) = inl endpoint_id ->
  stacks_resp w = Ok stacks ->
  let existing := find_existing stacks (arg_stack_name args) endpoint_id in
  let env_vars := env_vars_of (arg_env args) in
  let st_m :=
    mkState (now st) (polls st)
      (log st ++ GET_endpoints :: GET_stacks ::
       mutation_events w args content env_vars endpoint_id existing) in
  cmd_deploy w args st =
  match mutation_resp w args content env_vars endpoint_id existing with
  | Ok _ =>
      if arg_no_validate args then (Ret 0, st_m)
      else validated (validate_deployment w endpoint_id (arg_stack_name args)
                                          default_timeout st_m)
  | HttpFail => (Ret 1, st_m)
  | TransportFail => (Raise RequestException, st_m)
  end.
Proof.
  intros Hf He Hsel Hs existing env_vars st_m.
  unfold cmd_deploy. rewrite Hf.
  unfold bind at 1, try_except.
  rewrite (get_endpoint_id_run w endpoints _ st He), Hsel.
  unfold bind at 1, list_stacks, request, bind at 1, emit. rewrite Hs.
  cbn [now polls log ret].
  fold existing env_vars.
  unfold bind at 1, try_except, deploy_or_update, bind at 1.
  rewrite mutate_run. cbn [now polls log].
  rewrite <- !app_assoc. cbn [app]. fold st_m.
  destruct (mutation_resp w args content env_vars endpoint_id existing)
    as [u| |]; cbn [outcome is_HTTPError]; try reflexivity.
  destruct (arg_no_validate args); cbn [negb]; [reflexivity|].
  unfold bind at 1.
  destruct (validate_deployment w endpoint_id (arg_stack_name args)
              default_timeout st_m) as [[[|]|[]|] s]; reflexivity.
Qed.

Lemma snd_validated (r : result bool * state) : snd (validated r) = snd r.
Proof. destruct r as [[[|]|[]|] s]; reflexivity. Qed.

Lemma validation_event_kind (e : event) :
  is_validation_event e = true -> is_update e = false /\ is_create e = false.
Proof. destruct e; simpl; intros H; try discriminate; auto. Qed.

Lemma validation_events_kind (evs : list event) (e : event) :
  forallb is_validation_event evs = true -> In e evs ->
  is_update e = false /\ is_create e = false.
Proof.
  rewrite forallb_forall. intros H Hin.
  apply validation_event_kind. now apply H.
Qed.

(** The log of [cmd_deploy]: the two listings, the requests of the mutation,
    then the events of the validation, of which there are none unless the
    mutation succeeded. *)
Lemma cmd_deploy_log (w : world) (args : arguments) (content : string)
    (endpoints : list endpoint) (endpoint_id : Z) (stacks : list stack)
    (st : state) :
  files w (arg_compose_file args) = Some content ->
  endpoints_resp w = Ok endpoints ->
  select_endpoint endpoints (arg_endpoint args) = inl endpoint_id ->
  stacks_resp w = Ok stacks ->
  exists vevs,
    log (snd (cmd_deploy w args st)) =
    log st ++ GET_endpoints :: GET_stacks ::
      mutation_events w args content (env_vars_of (arg_env args)) endpoint_id
        (find_existing stacks (arg_stack_name args) endpoint_id) ++ vevs
    /\ forallb is_validation_event vevs = true
    /\ ((forall u, mutation_resp w args content (env_vars_of (arg_env args))
                     endpoint_id
                     (find_existing stacks (arg_stack_name args) endpoint_id)
                   <> Ok u) -> vevs = []).
Proof.
  intros Hf He Hsel Hs.
  rewrite (cmd_deploy_run w args content endpoints endpoint_id stacks st
             Hf He Hsel Hs).
  cbv zeta.
  set (mevs := mutation_events _ _ _ _ _ _).
  destruct (mutation_resp _ _ _ _ _ _) as [u| |].
  - destruct (arg_no_validate args).
    + exists []. cbn [snd log]. rewrite app_nil_r. repeat split.
    + rewrite snd_validated.
      destruct (validate_deployment_effects w endpoint_id
                  (arg_stack_name args) default_timeout
                  (mkState (now st) (polls st)
                     (log st ++ GET_endpoints :: GET_stacks :: mevs)))
        as (vevs & Hlog & Hev & _).
      exists vevs. rewrite Hlog. cbn [log]. rewrite <- app_assoc.
      repeat split; auto. intros H. now destruct (H u).
  - exists []. cbn [snd log]. rewrite app_nil_r. repeat split.
  - exists []. cbn [snd log]. rewrite app_nil_r. repeat split.
Qed.

(** C1: once the endpoint is resolved and the stacks are listed, the deploy
    command issues the update request if and only if the list has a stack
    of the requested name on the resolved endpoint; the update is then its
    next request, for the identifier of the first such stack, with the
    descriptor, the env list and [prune] true, and nothing of the create
    branch is requested; otherwise its next request opens the create branch
    for the resolved endpoint, followed, when the cluster identity lookup
    succeeds, by the create request with the requested name, the
    descriptor and the env list, and no update is requested. *)
Theorem deploy_chooses_branch (w : world) (args : arguments)
    (content : string) (endpoints : list endpoint) (endpoint_id : Z)
    (stacks : list stack) (st : state) :
  files w (arg_compose_file args) = Some content ->
  endpoints_resp w = Ok endpoints ->
  select_endpoint endpoints (arg_endpoint args) = inl endpoint_id ->
  stacks_resp w = Ok stacks ->
  exists evs,
    log (snd (cmd_deploy w args st)) =
    log st ++ GET_endpoints :: GET_stacks :: evs
    /\
    ((exists s, In s stacks /\
        same_name_and_endpoint (arg_stack_name args) endpoint_id s)
     <-> (exists e, In e evs /\ is_update e = true))
    /\
    (forall pre s post,
       stacks = pre ++ s :: post ->
       same_name_and_endpoint (arg_stack_name args) endpoint_id s ->
       (forall x, In x pre ->
          ~ same_name_and_endpoint (arg_stack_name args) endpoint_id x) ->
       hd_error evs =
       Some (PUT_update (stack_Id s) endpoint_id content
                        (env_vars_of (arg_env args)) true)
       /\ (forall e, In e (tl evs) -> is_update e = false)
       /\ (forall e, In e evs -> is_create e = false))
    /\
    ((forall s, In s stacks ->
        ~ same_name_and_endpoint (arg_stack_name args) endpoint_id s) ->
     hd_error evs = Some (GET_swarm endpoint_id)
     /\ (forall swarm_id,
           swarm_resp w endpoint_id = Ok swarm_id ->
           nth_error evs 1 =
           Some (POST_create endpoint_id (arg_stack_name args) content
                             swarm_id (env_vars_of (arg_env args))))
     /\ (forall e, In e evs -> is_update e = false)).
Proof.
  intros Hf He Hsel Hs.
  destruct (cmd_deploy_log w args content endpoints endpoint_id stacks st
              Hf He Hsel Hs) as (vevs & Hlog & Hev & _).
  set (name := arg_stack_name args) in *.
  set (env_vars := env_vars_of (arg_env args)) in *.
  exists (mutation_events w args content env_vars endpoint_id
            (find_existing stacks name endpoint_id) ++ vevs).
  split; [exact Hlog|].
  destruct (find_existing stacks name endpoint_id) as [s0|] eqn:E;
    cbn [mutation_events app hd_error tl].
  - destruct (find_existing_some _ _ _ _ E) as [Hin Hs0].
    split; [|split].
    + split; intros _.
      * eexists. split; [left; reflexivity|reflexivity].
      * now exists s0.
    + intros pre s post Hst Hsame Hpre.
      rewrite (find_existing_first stacks pre post s name endpoint_id
                 Hst Hsame Hpre) in E.
      injection E as <-. split; [reflexivity|]. split.
      * intros e Hin'. now apply (validation_events_kind vevs).
      * intros e [<-|Hin']; [reflexivity|].
        now apply (validation_events_kind vevs).
    + intros Hnone. destruct (Hnone s0 Hin Hs0).
  - pose proof (proj1 (find_existing_none _ _ _) E) as Hnone.
    assert (Hup : forall e,
               In e (GET_swarm endpoint_id ::
                     match swarm_resp w endpoint_id with
                     | Ok swarm_id =>
                         [POST_create endpoint_id name content swarm_id
                                      env_vars]
                     | _ => []
                     end ++ vevs) -> is_update e = false).
    { intros e [<-|Hin]; [reflexivity|].
      apply in_app_or in Hin. destruct Hin as [Hin|Hin].
      - destruct (swarm_resp w endpoint_id); simpl in Hin;
          try contradiction.
        destruct Hin as [<-|[]]. reflexivity.
      - now apply (validation_events_kind vevs). }
    split; [|split].
    + split.
      * intros (s & Hin & Hsame). destruct (Hnone s Hin Hsame).
      * intros (e & Hin & Hupd). rewrite (Hup e Hin) in Hupd. discriminate.
    + intros pre s post Hst Hsame _.
      destruct (Hnone s); [|exact Hsame].
      rewrite Hst. apply in_elt.
    + intros _. split; [reflexivity|]. split; [|exact Hup].
      intros swarm_id Hsw. rewrite Hsw. reflexivity.
Qed.

Lemma deploy_chooses_branch_witness :
  (exists evs,
     log (snd (cmd_deploy (mock [prod] [mkStack 7 "app" (Some 1)] running 0)
                          (deploy_args None) (initial 0)))
     = log (initial 0) ++ GET_endpoints :: GET_stacks :: evs
     /\ hd_error evs = Some (PUT_update 7 1 "version:1" [] true))
  /\
  (exists evs,
     log (snd (cmd_deploy (mock [prod] [] running 0) (deploy_args None)
                          (initial 0)))
     = log (initial 0) ++ GET_endpoints :: GET_stacks :: evs
     /\ hd_error evs = Some (GET_swarm 1)
     /\ nth_error evs 1 = Some (POST_create 1 "app" "version:1" "swarm-1" [])).
Proof.
  split.
  - destruct (deploy_chooses_branch
                (mock [prod] [mkStack 7 "app" (Some 1)] running 0)
                (deploy_args None) "version:1" [prod] 1
                [mkStack 7 "app" (Some 1)] (initial 0)
                eq_refl eq_refl eq_refl eq_refl)
      as (evs & Hlog & _ & Hupdate & _).
    exists evs. split; [exact Hlog|].
    apply (Hupdate [] (mkStack 7 "app" (Some 1)) [] eq_refl).
    + split; reflexivity.
    + intros x [].
  - destruct (deploy_chooses_branch (mock [prod] [] running 0)
                (deploy_args None) "version:1" [prod] 1 [] (initial 0)
                eq_refl eq_refl eq_refl eq_refl)
      as (evs & Hlog & _ & _ & Hcreate).
    exists evs. split; [exact Hlog|].
    destruct (Hcreate ltac:(intros s [])) as (Hhd & Hnth & _).
    split; [exact Hhd|]. apply Hnth. reflexivity.
Defined.

(** [main] for the deploy command. *)
Lemma main_deploy_run (w : world) (args : arguments) (st : state) :
  arg_command args = Some CmdDeploy ->
  main w args st =
  let st_a := mkState (now st) (polls st)
                (log st ++ [POST_auth (arg_user args) (arg_password args)]) in
  match auth_resp w (arg_user args) (arg_password args) with
  | Ok _ => cmd_deploy w args st_a
  | _ => (Ret 1, st_a)
  end.
Proof.
  intros Hcmd. unfold main. rewrite Hcmd.
  unfold bind, authenticate, try_except, request, bind, emit.
  destruct (auth_resp w (arg_user args) (arg_password args)); reflexivity.
Qed.


(** A deploy run that gets as far as the mutation. *)
Lemma deploy_reaches_mutation (w : world) (args : arguments)
    (content : string) (endpoint_id : Z) (stacks : list stack) (st : state) :
  reaches_mutation w args content endpoint_id stacks ->
  let existing := find_existing stacks (arg_stack_name args) endpoint_id in
  let env_vars := env_vars_of (arg_env args) in
  let st_m := validation_start w args content endpoint_id stacks st in
  main w args st =
  match mutation_resp w args content env_vars endpoint_id existing with
  | Ok _ =>
      if arg_no_validate args then (Ret 0, st_m)
      else validated (validate_deployment w endpoint_id (arg_stack_name args)
                                          default_timeout st_m)
  | HttpFail => (Ret 1, st_m)
  | TransportFail => (Raise RequestException, st_m)
  end.
Proof.
  intros (Hcmd & Ha & Hf & (endpoints & He & Hsel) & Hs).
  rewrite (main_deploy_run w args st Hcmd), Ha. cbv zeta.
  rewrite (cmd_deploy_run w args content endpoints endpoint_id stacks _
             Hf He Hsel Hs).
  cbv zeta. unfold validation_start. cbn [now polls log].
  rewrite <- app_assoc. reflexivity.
Qed.







(** ** Delete *)

Lemma cmd_delete_run (w : world) (args : arguments)
    (endpoints : list endpoint) (endpoint_id : Z) (stacks : list stack)
    (st : state) :
  endpoints_resp w = Ok endpoints ->
  select_endpoint endpoints (arg_endpoint args) = inl endpoint_id ->
  stacks_resp w = Ok stacks ->
  cmd_delete w args st =
  delete_scan w args endpoint_id stacks
    (mkState (now st) (polls st) (log st ++ [GET_endpoints; GET_stacks])).
Proof.
  intros He Hsel Hs. unfold cmd_delete, bind at 1.
  rewrite (get_endpoint_id_run w endpoints _ st He), Hsel.
  unfold bind at 1, list_stacks, request, bind at 1, emit. rewrite Hs.
  cbn [now polls log ret]. now rewrite <- app_assoc.
Qed.

(** The scan stops at the first stack of the requested name: it asks for
    confirmation unless [--yes] was given and, once confirmed, deletes that
    stack on the endpoint it was given. *)
Lemma delete_scan_first (w : world) (args : arguments) (endpoint_id : Z)
    (pre post : list stack) (s : stack) (st : state) :
  stack_Name s = arg_stack_name args ->
  (forall x, In x pre -> stack_Name x <> arg_stack_name args) ->
  delete_scan w args endpoint_id (pre ++ s :: post) st =
  (if confirmed w args
   then match delete_resp w (stack_Id s) endpoint_id with
        | Ok _ => Ret 0
        | HttpFail => Raise HTTPError
        | TransportFail => Raise RequestException
        end
   else Ret 0,
   mkState (now st) (polls st)
     (log st ++ (if arg_yes args then [] else [Input]) ++
      (if confirmed w args
       then [DELETE_stack (stack_Id s) endpoint_id] else []))).
Proof.
  intros Hs. induction pre as [|x pre IH]; intros Hpre; cbn [app delete_scan].
  - rewrite (proj2 (String.eqb_eq _ _) Hs).
    unfold confirmed, confirm, bind, delete_stack, request, bind, emit.
    destruct (arg_yes args); cbn [orb].
    + cbn [ret now polls log app].
      destruct (delete_resp w (stack_Id s) endpoint_id); reflexivity.
    + cbn [ret now polls log].
      destruct (lower_is_y (input_reply w)); cbn [ret now polls log].
      * rewrite <- app_assoc.
        destruct (delete_resp w (stack_Id s) endpoint_id); reflexivity.
      * reflexivity.
  - rewrite (proj2 (String.eqb_neq _ _) (Hpre x (or_introl eq_refl))).
    apply IH. intros y Hy. apply Hpre. now right.
Qed.

(** C8: whenever the stack list has a stack of the requested name, the
    delete command selects the first stack of that name, whatever endpoint
    that stack belongs to, and, once the deletion is confirmed, requests the
    deletion of that stack's identifier on the resolved endpoint; with
    same-named stacks on two endpoints the stack deleted can be one of
    another endpoint than the resolved one. *)
Theorem delete_selects_by_name_only :
  (forall (w : world) (args : arguments) (endpoints : list endpoint)
          (endpoint_id : Z) (stacks : list stack) (st : state),
      endpoints_resp w = Ok endpoints ->
      select_endpoint endpoints (arg_endpoint args) = inl endpoint_id ->
      stacks_resp w = Ok stacks ->
      (exists x, In x stacks /\ stack_Name x = arg_stack_name args) ->
      exists pre s post,
        stacks = pre ++ s :: post
        /\ stack_Name s = arg_stack_name args
        /\ (forall x, In x pre -> stack_Name x <> arg_stack_name args)
        /\ log (snd (cmd_delete w args st)) =
           log st ++ [GET_endpoints; GET_stacks] ++
           (if arg_yes args then [] else [Input]) ++
           (if confirmed w args
            then [DELETE_stack (stack_Id s) endpoint_id] else [])
        /\ (confirmed w args = true ->
            In (DELETE_stack (stack_Id s) endpoint_id)
               (log (snd (cmd_delete w args st)))))
  /\
  (exists (w : world) (args : arguments) (endpoint_id : Z) (s s' : stack),
      fst (get_endpoint_id w (arg_endpoint args) (initial 0)) = Ret endpoint_id
      /\ stacks_resp w = Ok [s; s']
      /\ stack_Name s = arg_stack_name args
      /\ stack_Name s' = arg_stack_name args
      /\ stack_EndpointId s <> Some endpoint_id
      /\ stack_EndpointId s' = Some endpoint_id
      /\ log (snd (cmd_delete w args (initial 0))) =
         [GET_endpoints; GET_stacks; DELETE_stack (stack_Id s) endpoint_id]).
Proof.
  split.
  - intros w args endpoints endpoint_id stacks st He Hsel Hs (x & Hin & Hx).
    destruct (find (fun s => String.eqb (stack_Name s) (arg_stack_name args))
                   stacks) as [s|] eqn:E.
    + destruct (find_split _ _ _ E) as (pre & post & Hst & Hname & Hpre).
      apply String.eqb_eq in Hname.
      assert (Hpre' : forall y, In y pre ->
                        stack_Name y <> arg_stack_name args).
      { intros y Hy. apply String.eqb_neq. now apply Hpre. }
      exists pre, s, post.
      rewrite (cmd_delete_run w args endpoints endpoint_id stacks st
                 He Hsel Hs), Hst.
      rewrite (delete_scan_first w args endpoint_id pre post s _
                 Hname Hpre').
      cbn [snd log now polls]. rewrite <- app_assoc.
      split; [reflexivity|]. split; [exact Hname|]. split; [exact Hpre'|].
      split; [reflexivity|].
      intros Hc. rewrite Hc.
      do 3 (apply in_or_app; right). now left.
    + apply find_none_iff with (y := x) in E; [|exact Hin].
      apply String.eqb_neq in E. contradiction.
  - exists (mock [prod; edge] [mkStack 7 "app" (Some 1);
                               mkStack 9 "app" (Some 2)] running 0),
           (delete_args (Some "edge") true), 2,
           (mkStack 7 "app" (Some 1)), (mkStack 9 "app" (Some 2)).
    repeat split; discriminate.
Qed.

Lemma delete_selects_by_name_only_witness :
  In (DELETE_stack 7 2)
     (log (snd (cmd_delete
                  (mock [prod; edge] [mkStack 7 "app" (Some 1);
                                      mkStack 9 "app" (Some 2)] running 0)
                  (delete_args (Some "edge") true) (initial 0)))).
Proof.
  destruct (proj1 delete_selects_by_name_only
              (mock [prod; edge] [mkStack 7 "app" (Some 1);
                                  mkStack 9 "app" (Some 2)] running 0)
              (delete_args (Some "edge") true) [prod; edge] 2
              [mkStack 7 "app" (Some 1); mkStack 9 "app" (Some 2)]
              (initial 0) eq_refl eq_refl eq_refl)
    as (pre & s & post & Hst & _ & Hpre & _ & Hin).
  - exists (mkStack 7 "app" (Some 1)). split; [now left|reflexivity].
  - destruct pre as [|x pre]; simpl in Hst.
    + injection Hst as <- _. apply Hin. reflexivity.
    + injection Hst as <- _.
      destruct (Hpre (mkStack 7 "app" (Some 1)) (or_introl eq_refl)).
      reflexivity.
Defined.

(** ** Environment overrides *)

Lemma split_eq_none (env : string) :
  split_eq env = None <-> has_eq env = false.
Proof.
  induction env as [|c rest IH]; simpl; [tauto|].
  destruct (Ascii.eqb c "="%char); simpl.
  - split; discriminate.
  - rewrite <- IH. destruct (split_eq rest) as [[key value]|].
    + split; discriminate.
    + tauto.
Qed.

Lemma split_eq_some (env key value : string) :
  split_eq env = Some (key, value) <->
  env = (key ++ String "="%char value)%string /\ has_eq key = false.
Proof.
  revert key. induction env as [|c rest IH]; intros key; simpl.
  - split; [discriminate|]. intros [H _]. destruct key; discriminate.
  - destruct (Ascii.eqb_spec c "="%char) as [->|Hc].
    + split.
      * intros [= <- <-]. split; reflexivity.
      * intros [H Hk]. destruct key as [|d key]; simpl in *.
        -- now injection H as ->.
        -- injection H as <- _. simpl in Hk. discriminate.
    + split.
      * destruct (split_eq rest) as [[k v]|] eqn:E; [|discriminate].
        intros [= <- <-]. destruct (proj1 (IH k) eq_refl) as [-> Hk].
        split; [reflexivity|]. simpl.
        destruct (Ascii.eqb_spec c "="%char); [contradiction|exact Hk].
      * intros [H Hk]. destruct key as [|d key]; simpl in *.
        -- injection H as -> _. contradiction.
        -- injection H as <- ->.
           apply orb_false_iff in Hk. destruct Hk as [_ Hk].
           now rewrite (proj2 (IH key) (conj eq_refl Hk)).
Qed.

(** An [--env] entry is split at its first ['=']: the key is the text
    before it and has no ['='], the value is all the text after it, and
    key, ['='] and value make up the entry again; an entry is not split
    exactly when it has no ['=']. *)
Theorem split_eq_at_first (env : string) :
  (split_eq env = None <-> has_eq env = false)
  /\
  (forall key value,
     split_eq env = Some (key, value) <->
     env = (key ++ String "="%char value)%string /\ has_eq key = false).
Proof.
  split.
  - apply split_eq_none.
  - intros key value. apply split_eq_some.
Qed.

Lemma split_eq_at_first_witness :
  split_eq "URL=http://db?x=1" = Some ("URL", "http://db?x=1")
  /\ split_eq "verbose" = None.
Proof.
  split.
  - apply (proj2 (split_eq_at_first "URL=http://db?x=1") "URL"
             "http://db?x=1").
    split; reflexivity.
  - apply (proj1 (split_eq_at_first "verbose")). reflexivity.
Defined.




(** ** The base URL *)

Lemma rstrip_slash_slashes (n : nat) : rstrip_slash (slashes n) = EmptyString.
Proof. induction n as [|n IH]; simpl; [reflexivity|]. now rewrite IH. Qed.

Lemma last_char_none (s : string) : last_char s = None -> s = EmptyString.
Proof.
  induction s as [|c rest IH]; simpl; [reflexivity|].
  destruct rest as [|d rest]; [discriminate|].
  intros H. apply IH in H. discriminate.
Qed.

Lemma rstrip_slash_kept (s : string) :
  last_char s <> None -> last_char s <> Some "/"%char -> rstrip_slash s = s.
Proof.
  induction s as [|c rest IH]; simpl; [congruence|].
  destruct rest as [|d rest].
  - intros _ H. simpl.
    destruct (Ascii.eqb_spec c "/"%char); [congruence|reflexivity].
  - intros H1 H2. rewrite IH; auto.
Qed.

(** The client drops exactly the slashes at the end of the URL it is
    given: what it keeps does not end in a slash, the URL is what it keeps
    followed by slashes only, and a URL given with or without a final slash
    leads to the same request URLs. *)
Theorem base_url_without_final_slashes (url : string) :
  last_char (rstrip_slash url) <> Some "/"%char
  /\ (exists n, url = (rstrip_slash url ++ slashes n)%string)
  /\ rstrip_slash (rstrip_slash url) = rstrip_slash url
  /\ (forall path,
        api_url (url ++ "/")%string path = api_url url path).
Proof.
  assert (H1 : forall s, last_char (rstrip_slash s) <> Some "/"%char
                         /\ exists n, s = (rstrip_slash s ++ slashes n)%string).
  { induction s as [|c rest [IHl [n IHn]]]; simpl.
    - split; [discriminate|]. now exists 0%nat.
    - destruct (rstrip_slash rest) as [|d kept] eqn:E.
      + simpl in IHn. destruct (Ascii.eqb_spec c "/"%char) as [->|Hc].
        * split; [discriminate|]. exists (S n). simpl. now rewrite IHn.
        * split; [simpl; congruence|]. exists n. simpl. now rewrite IHn.
      + split; [exact IHl|]. exists n. simpl. simpl in IHn.
        f_equal. exact IHn. }
  assert (H2 : forall s, rstrip_slash (s ++ "/")%string = rstrip_slash s).
  { induction s as [|c rest IH]; simpl; [reflexivity|]. now rewrite IH. }
  split; [apply H1|]. split; [apply H1|]. split.
  - destruct (rstrip_slash url) as [|c kept] eqn:E; [reflexivity|].
    apply rstrip_slash_kept.
    + intros H. apply last_char_none in H. discriminate.
    + rewrite <- E. apply H1.
  - intros path. unfold api_url. now rewrite H2.
Qed.

(** ** What a run may request *)

Section Only.

Context {A : Type} (p : event -> bool).

Lemma only_ret (a : A) : only p (ret a).
Proof. intros st. exists []. simpl. now rewrite app_nil_r. Qed.

Lemma only_raise (e : exn) : only p (@raise A e).
Proof. intros st. exists []. simpl. now rewrite app_nil_r. Qed.

Lemma only_request (e : event) (r : response A) :
  p e = true -> only p (request e r).
Proof.
  intros He st. exists [e]. unfold request, bind, emit.
  destruct r; simpl; now rewrite He.
Qed.

Lemma only_bind {B : Type} (m : M B) (k : B -> M A) :
  only p m -> (forall b, only p (k b)) -> only p (bind m k).
Proof.
  intros Hm Hk st. unfold bind.
  destruct (Hm st) as (evs & Hlog & Hevs).
  destruct (m st) as [[b|e|] st']; simpl in Hlog.
  - destruct (Hk b st') as (evs' & Hlog' & Hevs').
    exists (evs ++ evs'). rewrite Hlog', Hlog, app_assoc.
    split; [reflexivity|]. rewrite forallb_app. now rewrite Hevs, Hevs'.
  - now exists evs.
  - now exists evs.
Qed.

Lemma only_try_except (m : M A) (handles : exn -> bool) :
  only p m -> only p (try_except m handles).
Proof.
  intros Hm st. unfold try_except.
  destruct (Hm st) as (evs & Hlog & Hevs).
  destruct (m st) as [[a|e|] st']; simpl in Hlog; [| |]; try now exists evs.
  destruct (handles e); now exists evs.
Qed.

End Only.

Lemma only_weaken {A} (p q : event -> bool) (m : M A) :
  (forall e, p e = true -> q e = true) -> only p m -> only q m.
Proof.
  intros Hpq Hm st. destruct (Hm st) as (evs & Hlog & Hevs).
  exists evs. split; [exact Hlog|].
  rewrite forallb_forall in *. auto.
Qed.

Lemma only_validate_deployment (w : world) (endpoint_id : Z)
    (stack_name : string) (timeout : Z) :
  only is_validation_event
       (validate_deployment w endpoint_id stack_name timeout).
Proof.
  intros st.
  destruct (validate_deployment_effects w endpoint_id stack_name timeout st)
    as (evs & Hlog & Hevs & _).
  now exists evs.
Qed.

Lemma only_get_endpoint_id (w : world) (p : event -> bool)
    (endpoint_name : option string) :
  p GET_endpoints = true -> only p (get_endpoint_id w endpoint_name).
Proof.
  intros Hp. unfold get_endpoint_id, get_endpoints.
  apply only_bind; [now apply only_request|].
  intros endpoints. destruct (select_endpoint endpoints endpoint_name).
  - apply only_ret.
  - apply only_raise.
Qed.

Lemma only_cmd_deploy (w : world) (args : arguments) :
  only deploy_event (cmd_deploy w args).
Proof.
  unfold cmd_deploy.
  destruct (files w (arg_compose_file args)) as [content|];
    [|apply only_ret].
  apply only_bind.
  { apply only_try_except. now apply only_get_endpoint_id. }
  intros [endpoint_id|e]; [|apply only_ret].
  apply only_bind; [now apply only_request|]. intros stacks.
  apply only_bind.
  - apply only_try_except. unfold deploy_or_update. apply only_bind.
    + unfold mutate.
      destruct (find_existing stacks (arg_stack_name args) endpoint_id).
      * now apply only_request.
      * unfold deploy_stack, get_swarm_id.
        apply only_bind; [now apply only_request|].
        intros swarm_id. now apply only_request.
    + intros _. destruct (negb (arg_no_validate args)); [|apply only_ret].
      apply only_bind.
      * apply (only_weaken is_validation_event);
          [|apply only_validate_deployment].
        intros [] H; try discriminate; reflexivity.
      * intros healthy. destruct (negb healthy); apply only_ret.
  - intros [code|e]; apply only_ret.
Qed.

Lemma only_delete_scan (w : world) (args : arguments) (endpoint_id : Z)
    (stacks : list stack) :
  only delete_event (delete_scan w args endpoint_id stacks).
Proof.
  induction stacks as [|s rest IH]; simpl; [apply only_ret|].
  destruct (String.eqb (stack_Name s) (arg_stack_name args)); [|exact IH].
  apply only_bind.
  - unfold confirm. destruct (arg_yes args); [apply only_ret|].
    apply only_bind; [|intros _; apply only_ret].
    intros st. exists [Input]. now split.
  - intros yes. destruct yes; [|apply only_ret].
    apply only_bind; [|intros _; apply only_ret].
    unfold delete_stack.
    apply only_bind; [now apply only_request|intros _; apply only_ret].
Qed.

Lemma only_cmd_delete (w : world) (args : arguments) :
  only delete_event (cmd_delete w args).
Proof.
  unfold cmd_delete.
  apply only_bind; [now apply only_get_endpoint_id|]. intros endpoint_id.
  apply only_bind; [now apply only_request|]. intros stacks.
  apply only_delete_scan.
Qed.

Lemma only_cmd_list (w : world) (args : arguments) :
  only list_event (cmd_list w args).
Proof.
  unfold cmd_list. apply only_bind; [now apply only_request|].
  intros stacks. destruct (is_empty stacks); apply only_ret.
Qed.

(** Without a sub-command [main] returns 1 and requests nothing.  With
    one, its first request is the authentication; when that fails it
    returns 1 and requests nothing else; otherwise [list] requests nothing
    but the stack list, [deploy] never deletes a stack nor prompts, and
    [delete] never creates or updates a stack, polls a service or sleeps. *)
Theorem commands_keep_to_their_requests (w : world) (args : arguments)
    (st : state) :
  (arg_command args = None -> main w args st = (Ret 1, st))
  /\
  (forall cmd,
     arg_command args = Some cmd ->
     exists evs,
       log (snd (main w args st)) =
       log st ++ POST_auth (arg_user args) (arg_password args) :: evs
       /\ forallb (match cmd with
                   | CmdList => list_event
                   | CmdDeploy => deploy_event
                   | CmdDelete => delete_event
                   end) evs = true
       /\ ((forall body,
              auth_resp w (arg_user args) (arg_password args) <> Ok body) ->
           evs = [] /\ fst (main w args st) = Ret 1)).
Proof.
  split.
  - intros Hcmd. unfold main. now rewrite Hcmd.
  - intros cmd Hcmd. unfold main. rewrite Hcmd.
    unfold bind at 1, authenticate, bind at 1, try_except, request,
      bind at 1, emit.
    set (st_a := mkState (now st) (polls st)
                   (log st ++ [POST_auth (arg_user args)
                                         (arg_password args)])).
    destruct (auth_resp w (arg_user args) (arg_password args)) as [[]| |];
      cbn [ret raise is_RequestException negb].
    + assert (H : exists evs,
                 log (snd (match cmd with
                           | CmdList => cmd_list w args
                           | CmdDeploy => cmd_deploy w args
                           | CmdDelete => cmd_delete w args
                           end st_a)) = log st_a ++ evs
                 /\ forallb (match cmd with
                             | CmdList => list_event
                             | CmdDeploy => deploy_event
                             | CmdDelete => delete_event
                             end) evs = true).
      { destruct cmd.
        - apply only_cmd_list.
        - apply only_cmd_deploy.
        - apply only_cmd_delete. }
      destruct H as (evs & Hlog & Hevs). exists evs.
      rewrite Hlog. unfold st_a. cbn [log]. rewrite <- app_assoc.
      split; [reflexivity|]. split; [exact Hevs|].
      intros Hno. now destruct (Hno tt).
    + exists []. split; [reflexivity|]. split; [now destruct cmd|].
      intros _. split; reflexivity.
    + exists []. split; [reflexivity|]. split; [now destruct cmd|].
      intros _. split; reflexivity.
Qed.

Lemma commands_keep_to_their_requests_witness :
  main (mock [prod] [] running 0)
       (mkArgs None "admin" "secret" None "app" "" None false false)
       (initial 0)
  = (Ret 1, initial 0)
  /\ exists evs,
       log (snd (main (with_auth (mock [prod] [] running 0) HttpFail)
                      (delete_args None true) (initial 0)))
       = log (initial 0) ++ POST_auth "admin" "secret" :: evs
       /\ evs = []
       /\ fst (main (with_auth (mock [prod] [] running 0) HttpFail)
                    (delete_args None true) (initial 0)) = Ret 1.
Proof.
  split.
  - apply (proj1 (commands_keep_to_their_requests (mock [prod] [] running 0)
                    (mkArgs None "admin" "secret" None "app" "" None false
                            false) (initial 0))).
    reflexivity.
  - destruct (proj2 (commands_keep_to_their_requests
                       (with_auth (mock [prod] [] running 0) HttpFail)
                       (delete_args None true) (initial 0))
                CmdDelete eq_refl)
      as (evs & Hlog & _ & Hfail).
    exists evs. split; [exact Hlog|]. apply Hfail. discriminate.
Defined.

(** ** Endpoint selection *)

(** The endpoint resolved is always one of the list: of the requested name
    when a non-empty name was given, of type 1 or 2 otherwise.  The
    resolution fails with not-found only for a non-empty name that no
    endpoint has, and with none-available only without such a name and
    without an endpoint of type 1 or 2. *)
Theorem select_endpoint_sound (endpoints : list endpoint)
    (endpoint_name : option string) :
  (forall id,
     select_endpoint endpoints endpoint_name = inl id ->
     exists ep,
       In ep endpoints /\ ep_Id ep = id
       /\ (if str_truthy endpoint_name
           then Some (ep_Name ep) = endpoint_name
           else ep_Type ep = Some 1 \/ ep_Type ep = Some 2))
  /\
  (forall why,
     select_endpoint endpoints endpoint_name = inr why ->
     if str_truthy endpoint_name
     then exists name,
            endpoint_name = Some name /\ why = NotFound name
            /\ forall ep, In ep endpoints -> ep_Name ep <> name
     else why = NoneAvailable
          /\ forall ep, In ep endpoints ->
               ep_Type ep <> Some 1 /\ ep_Type ep <> Some 2).
Proof.
  assert (Hdefault :
            (forall id,
               match first_docker_or_swarm endpoints with
               | Some i => inl i
               | None => inr NoneAvailable
               end = inl id ->
               exists ep, In ep endpoints /\ ep_Id ep = id
                          /\ (ep_Type ep = Some 1 \/ ep_Type ep = Some 2))
            /\
            (forall why,
               match first_docker_or_swarm endpoints with
               | Some i => @inl Z _ i
               | None => inr NoneAvailable
               end = inr why ->
               why = NoneAvailable
               /\ forall ep, In ep endpoints ->
                    ep_Type ep <> Some 1 /\ ep_Type ep <> Some 2)).
  { rewrite first_docker_or_swarm_find.
    destruct (find (fun ep => in_1_2 (ep_Type ep)) endpoints) as [ep|] eqn:E;
      simpl; split; try discriminate.
    - intros id [= <-]. apply find_some in E. destruct E as [Hin Ht].
      exists ep. repeat split; auto. now apply in_1_2_true.
    - intros why [= <-]. split; [reflexivity|].
      intros ep Hin. apply in_1_2_false.
      now apply (proj1 (find_none_iff _ endpoints) E). }
  unfold select_endpoint.
  destruct endpoint_name as [[|c name]|]; cbn [str_truthy]; try exact Hdefault.
  rewrite first_named_find.
  destruct (find (fun ep => String.eqb (ep_Name ep) (String c name))
                 endpoints) as [ep|] eqn:E; simpl; split; try discriminate.
  - intros id [= <-]. apply find_some in E. destruct E as [Hin Hn].
    apply String.eqb_eq in Hn. exists ep. repeat split; auto. now rewrite Hn.
  - intros why [= <-]. exists (String c name). repeat split.
    intros ep Hin. apply String.eqb_neq.
    now apply (proj1 (find_none_iff _ endpoints) E).
Qed.

Lemma select_endpoint_sound_witness :
  (exists ep, In ep [edge; staging; prod] /\ ep_Id ep = 3
              /\ (ep_Type ep = Some 1 \/ ep_Type ep = Some 2))
  /\ (forall ep, In ep [edge] ->
        ep_Type ep <> Some 1 /\ ep_Type ep <> Some 2).
Proof.
  split.
  - apply (proj1 (select_endpoint_sound [edge; staging; prod] None) 3).
    reflexivity.
  - apply (proj2 (select_endpoint_sound [edge] None) NoneAvailable).
    reflexivity.
Defined.

(** A search by name never looks at the type of an endpoint, so it can
    resolve to an endpoint of a type the default selection skips; the
    default selection never looks at a name. *)
Theorem select_endpoint_reads_one_field (endpoints : list endpoint)
    (endpoint_name : option string) :
  (forall type_of : endpoint -> option Z,
     str_truthy endpoint_name = true ->
     select_endpoint
       (map (fun ep => mkEndpoint (ep_Id ep) (ep_Name ep) (type_of ep))
            endpoints) endpoint_name
     = select_endpoint endpoints endpoint_name)
  /\
  (forall name_of : endpoint -> string,
     str_truthy endpoint_name = false ->
     select_endpoint
       (map (fun ep => mkEndpoint (ep_Id ep) (name_of ep) (ep_Type ep))
            endpoints) endpoint_name
     = select_endpoint endpoints endpoint_name).
Proof.
  split.
  - intros type_of Ht. unfold select_endpoint.
    destruct endpoint_name as [name|]; [|discriminate]. rewrite Ht.
    replace (first_named (map _ endpoints) name)
      with (first_named endpoints name); [reflexivity|].
    induction endpoints as [|ep rest IH]; simpl; [reflexivity|].
    now rewrite IH.
  - intros name_of Ht.
    assert (H : first_docker_or_swarm
                  (map (fun ep => mkEndpoint (ep_Id ep) (name_of ep)
                                             (ep_Type ep)) endpoints)
                = first_docker_or_swarm endpoints).
    { induction endpoints as [|ep rest IH]; simpl; [reflexivity|].
      now rewrite IH. }
    unfold select_endpoint.
    destruct endpoint_name as [name|]; [rewrite Ht|]; now rewrite H.
Qed.

Lemma select_endpoint_reads_one_field_witness :
  select_endpoint [mkEndpoint 1 "prod" (Some 4); mkEndpoint 2 "edge" (Some 4)]
                  (Some "edge")
  = select_endpoint [prod; edge] (Some "edge")
  /\ select_endpoint [mkEndpoint 1 "" (Some 2); mkEndpoint 2 "" (Some 4)] None
     = select_endpoint [prod; edge] None.
Proof.
  split.
  - exact (proj1 (select_endpoint_reads_one_field [prod; edge] (Some "edge"))
             (fun _ => Some 4) eq_refl).
  - exact (proj2 (select_endpoint_reads_one_field [prod; edge] None)
             (fun _ => EmptyString) eq_refl).
Defined.

(** ** Delete without a deletion *)

Lemma delete_scan_run (w : world) (args : arguments) (endpoint_id : Z)
    (stacks : list stack) (st : state) :
  delete_scan w args endpoint_id stacks st =
  match first_of_name stacks (arg_stack_name args) with
  | None => (Ret 1, st)
  | Some s =>
      (if confirmed w args
       then match delete_resp w (stack_Id s) endpoint_id with
            | Ok _ => Ret 0
            | HttpFail => Raise HTTPError
            | TransportFail => Raise RequestException
            end
       else Ret 0,
       mkState (now st) (polls st)
         (log st ++ (if arg_yes args then [] else [Input]) ++
          (if confirmed w args
           then [DELETE_stack (stack_Id s) endpoint_id] else [])))
  end.
Proof.
  unfold first_of_name.
  destruct (find _ stacks) as [s|] eqn:E.
  - destruct (find_split _ _ _ E) as (pre & post & -> & Hs & Hpre).
    apply delete_scan_first.
    + now apply String.eqb_eq.
    + intros x Hx. apply String.eqb_neq. now apply Hpre.
  - pose proof (proj1 (find_none_iff _ stacks) E) as Hnone.
    clear E. induction stacks as [|s rest IH]; simpl; [reflexivity|].
    rewrite (Hnone s (or_introl eq_refl)). apply IH.
    intros y Hy. apply Hnone. now right.
Qed.

(** When no stack has the requested name the delete command returns 1
    without prompting; when the first stack of that name is found and the
    deletion is not confirmed it returns 0, the status of a completed
    deletion.  No deletion is requested in either case. *)
Theorem delete_without_deletion (w : world) (args : arguments)
    (endpoints : list endpoint) (endpoint_id : Z) (stacks : list stack)
    (st : state) :
  endpoints_resp w = Ok endpoints ->
  select_endpoint endpoints (arg_endpoint args) = inl endpoint_id ->
  stacks_resp w = Ok stacks ->
  ((forall s, In s stacks -> stack_Name s <> arg_stack_name args) ->
   cmd_delete w args st =
   (Ret 1, mkState (now st) (polls st)
                   (log st ++ [GET_endpoints; GET_stacks])))
  /\
  ((exists s, In s stacks /\ stack_Name s = arg_stack_name args) ->
   confirmed w args = false ->
   cmd_delete w args st =
   (Ret 0, mkState (now st) (polls st)
                   (log st ++ [GET_endpoints; GET_stacks; Input]))).
Proof.
  intros He Hsel Hs.
  rewrite (cmd_delete_run w args endpoints endpoint_id stacks st He Hsel Hs).
  rewrite delete_scan_run. unfold first_of_name. split.
  - intros Hnone.
    replace (find _ stacks) with (@None stack); [reflexivity|].
    symmetry. apply find_none_iff. intros s Hin.
    apply String.eqb_neq. now apply Hnone.
  - intros (s & Hin & Hname) Hc.
    destruct (find _ stacks) as [s0|] eqn:E.
    + rewrite Hc. unfold confirmed in Hc.
      apply orb_false_iff in Hc. destruct Hc as [-> _].
      cbn [now polls log]. rewrite <- app_assoc. reflexivity.
    + apply find_none_iff with (y := s) in E; [|exact Hin].
      apply String.eqb_neq in E. contradiction.
Qed.

Lemma delete_without_deletion_witness :
  cmd_delete (mock [prod] [mkStack 7 "web" (Some 1)] running 0)
             (delete_args None true) (initial 0)
  = (Ret 1, mkState 0 0 [GET_endpoints; GET_stacks])
  /\
  cmd_delete (mock [prod] [mkStack 7 "app" (Some 1)] running 0)
             (delete_args None false) (initial 0)
  = (Ret 0, mkState 0 0 [GET_endpoints; GET_stacks; Input]).
Proof.
  split.
  - apply (proj1 (delete_without_deletion
                    (mock [prod] [mkStack 7 "web" (Some 1)] running 0)
                    (delete_args None true) [prod] 1
                    [mkStack 7 "web" (Some 1)] (initial 0)
                    eq_refl eq_refl eq_refl)).
    intros s [<-|[]]. discriminate.
  - apply (proj2 (delete_without_deletion
                    (mock [prod] [mkStack 7 "app" (Some 1)] running 0)
                    (delete_args None false) [prod] 1
                    [mkStack 7 "app" (Some 1)] (initial 0)
                    eq_refl eq_refl eq_refl)).
    + exists (mkStack 7 "app" (Some 1)). split; [now left|reflexivity].
    + reflexivity.
Defined.

(** ** What a delete run deletes *)

Lemma cmd_deploy_unresolved (w : world) (args : arguments)
    (endpoints : list endpoint) (why : resolution_error) (content : string)
    (st : state) :
  endpoints_resp w = Ok endpoints ->
  select_endpoint endpoints (arg_endpoint args) = inr why ->
  files w (arg_compose_file args) = Some content ->
  cmd_deploy w args st =
  (Ret 1, mkState (now st) (polls st) (log st ++ [GET_endpoints])).
Proof.
  intros He Hsel Hf. unfold cmd_deploy. rewrite Hf.
  unfold bind at 1, try_except.
  now rewrite (get_endpoint_id_run w endpoints _ st He), Hsel.
Qed.

(** A failed endpoint resolution ends both commands after the endpoint
    listing, but not alike: [cmd_deploy] handles the [ValueError] and
    returns 1, [cmd_delete] lets it escape. *)
Theorem resolution_failure_in_commands (w : world) (args : arguments)
    (endpoints : list endpoint) (why : resolution_error) (st : state) :
  endpoints_resp w = Ok endpoints ->
  select_endpoint endpoints (arg_endpoint args) = inr why ->
  cmd_delete w args st =
  (Raise (ValueError why),
   mkState (now st) (polls st) (log st ++ [GET_endpoints]))
  /\
  (forall content,
     files w (arg_compose_file args) = Some content ->
     cmd_deploy w args st =
     (Ret 1, mkState (now st) (polls st) (log st ++ [GET_endpoints]))).
Proof.
  intros He Hsel. split.
  - unfold cmd_delete, bind at 1.
    now rewrite (get_endpoint_id_run w endpoints _ st He), Hsel.
  - intros content Hf.
    exact (cmd_deploy_unresolved w args endpoints why content st He Hsel Hf).
Qed.

Lemma resolution_failure_in_commands_witness :
  cmd_delete (mock [edge] [] running 0) (delete_args None true) (initial 0)
  = (Raise (ValueError NoneAvailable), mkState 0 0 [GET_endpoints])
  /\
  cmd_deploy (mock [edge] [] running 0) (deploy_args None) (initial 0)
  = (Ret 1, mkState 0 0 [GET_endpoints]).
Proof.
  split.
  - apply (proj1 (resolution_failure_in_commands (mock [edge] [] running 0)
                    (delete_args None true) [edge] NoneAvailable (initial 0)
                    eq_refl eq_refl)).
  - apply (proj2 (resolution_failure_in_commands (mock [edge] [] running 0)
                    (deploy_args None) [edge] NoneAvailable (initial 0)
                    eq_refl eq_refl) "version:1").
    reflexivity.
Defined.

(** A delete run requests at most one deletion, and only a confirmed one,
    of the first listed stack of the requested name, on the resolved
    endpoint: further stacks of that name are left alone, and nothing is
    deleted when a listing or the resolution fails. *)
Theorem delete_is_sound (w : world) (args : arguments) (st : state) :
  exists evs,
    log (snd (cmd_delete w args st)) = log st ++ evs
    /\ (occurrences is_delete evs <= 1)%nat
    /\ forall stack_id endpoint_id,
         In (DELETE_stack stack_id endpoint_id) evs ->
         confirmed w args = true
         /\ exists endpoints stacks s,
              endpoints_resp w = Ok endpoints
              /\ select_endpoint endpoints (arg_endpoint args)
                 = inl endpoint_id
              /\ stacks_resp w = Ok stacks
              /\ first_of_name stacks (arg_stack_name args) = Some s
              /\ stack_id = stack_Id s.
Proof.
  assert (Hnone : forall evs,
             evs = [GET_endpoints] \/ evs = [GET_endpoints; GET_stacks] ->
             (occurrences is_delete evs <= 1)%nat
             /\ forall stack_id endpoint_id,
                  In (DELETE_stack stack_id endpoint_id) evs -> False).
  { intros evs [->| ->]; (split; [vm_compute; lia|]);
      intros sid eid H; simpl in H; intuition discriminate. }
  destruct (endpoints_resp w) as [endpoints| |] eqn:He.
  - destruct (select_endpoint endpoints (arg_endpoint args))
      as [endpoint_id|why] eqn:Hsel.
    + destruct (stacks_resp w) as [stacks| |] eqn:Hs.
      * rewrite (cmd_delete_run w args endpoints endpoint_id stacks st
                   He Hsel Hs), delete_scan_run.
        destruct (first_of_name stacks (arg_stack_name args)) as [s|] eqn:E.
        -- cbn [snd log]. rewrite <- app_assoc. eexists.
           split; [reflexivity|].
           destruct (confirmed w args) eqn:Hc; destruct (arg_yes args);
             (split; [vm_compute; lia|]);
             intros sid eid H; simpl in H;
             repeat (destruct H as [H|H]; try discriminate;
                     try contradiction);
             injection H as <- <-;
             (split; [reflexivity|]);
             exists endpoints, stacks, s; auto.
        -- exists [GET_endpoints; GET_stacks]. split; [reflexivity|].
           destruct (Hnone [GET_endpoints; GET_stacks]) as [H1 H2]; auto.
           split; [exact H1|]. intros sid eid H. destruct (H2 sid eid H).
      * exists [GET_endpoints; GET_stacks].
        unfold cmd_delete, bind at 1.
        rewrite (get_endpoint_id_run w endpoints _ st He), Hsel.
        unfold bind at 1, list_stacks, request, bind at 1, emit.
        rewrite Hs. cbn [snd log raise]. rewrite <- app_assoc.
        split; [reflexivity|].
        destruct (Hnone [GET_endpoints; GET_stacks]) as [H1 H2]; auto.
        split; [exact H1|]. intros sid eid H. destruct (H2 sid eid H).
      * exists [GET_endpoints; GET_stacks].
        unfold cmd_delete, bind at 1.
        rewrite (get_endpoint_id_run w endpoints _ st He), Hsel.
        unfold bind at 1, list_stacks, request, bind at 1, emit.
        rewrite Hs. cbn [snd log raise]. rewrite <- app_assoc.
        split; [reflexivity|].
        destruct (Hnone [GET_endpoints; GET_stacks]) as [H1 H2]; auto.
        split; [exact H1|]. intros sid eid H. destruct (H2 sid eid H).
    + exists [GET_endpoints].
      unfold cmd_delete, bind at 1.
      rewrite (get_endpoint_id_run w endpoints _ st He), Hsel.
      split; [reflexivity|].
      destruct (Hnone [GET_endpoints]) as [H1 H2]; auto.
      split; [exact H1|]. intros sid eid H. destruct (H2 sid eid H).
  - exists [GET_endpoints].
    unfold cmd_delete, bind at 1, get_endpoint_id, bind at 1, get_endpoints,
      request, bind at 1, emit. rewrite He.
    split; [reflexivity|].
    destruct (Hnone [GET_endpoints]) as [H1 H2]; auto.
    split; [exact H1|]. intros sid eid H. destruct (H2 sid eid H).
  - exists [GET_endpoints].
    unfold cmd_delete, bind at 1, get_endpoint_id, bind at 1, get_endpoints,
      request, bind at 1, emit. rewrite He.
    split; [reflexivity|].
    destruct (Hnone [GET_endpoints]) as [H1 H2]; auto.
    split; [exact H1|]. intros sid eid H. destruct (H2 sid eid H).
Qed.

(** ** What the verdict of the validator means *)

Lemma keeps_waiting_false (services : list service) :
  keeps_waiting services = false ->
  services <> [] /\ forall svc, In svc services -> converged svc.
Proof.
  unfold keeps_waiting. intros H. apply orb_false_iff in H.
  destruct H as [Hne Hall]. split.
  - intros ->. discriminate.
  - apply negb_false_iff in Hall. rewrite forallb_forall in Hall.
    intros svc Hin. apply convergedb_iff. now apply Hall.
Qed.

Lemma rounds_time_lower (w : world) (p k : nat) :
  interval * Z.of_nat k <= rounds_time w p k.
Proof.
  revert p. induction k as [|k IH]; intros p; unfold interval in *.
  - simpl. lia.
  - cbn [rounds_time]. specialize (IH (S p)). unfold interval. lia.
Qed.

Section Verdicts.

Variable w : world.
Variables (endpoint_id : Z) (stack_name : string) (timeout start_time : Z).

Local Abbreviation loop fuel :=
  (validate_loop w fuel endpoint_id stack_name timeout start_time).

Lemma validate_loop_true (fuel : nat) (st : state) :
  fst (loop fuel st) = Ret true ->
  exists k services,
    (polls st <= k)%nat
    /\ services_resp w k endpoint_id stack_name = Ok services
    /\ keeps_waiting services = false
    /\ polls (snd (loop fuel st)) = S k.
Proof.
  revert st. induction fuel as [|fuel IH]; intros st; [discriminate|].
  destruct (Z_lt_le_dec (now st - start_time) timeout) as [Ht|Ht].
  - destruct (services_resp w (polls st) endpoint_id stack_name)
      as [services| |] eqn:E.
    + rewrite (validate_loop_step w endpoint_id stack_name timeout
                 start_time fuel st services Ht E).
      destruct (keeps_waiting services) eqn:Hk.
      * intros H. apply IH in H.
        destruct H as (k & sv & Hle & Hs & Hw & Hp).
        exists k, sv. cbn [after_sleep after_poll polls] in Hle.
        repeat split; auto. lia.
      * intros _. exists (polls st), services. repeat split; auto.
    + rewrite (validate_loop_poll_fails w endpoint_id stack_name timeout
                 start_time fuel st HTTPError Ht) by now rewrite E.
      discriminate.
    + rewrite (validate_loop_poll_fails w endpoint_id stack_name timeout
                 start_time fuel st RequestException Ht) by now rewrite E.
      discriminate.
  - rewrite (validate_loop_expired w endpoint_id stack_name timeout
               start_time fuel st Ht). discriminate.
Qed.

Lemma validate_loop_false (fuel : nat) (st : state) :
  fst (loop fuel st) = Ret false ->
  timeout <= now (snd (loop fuel st)) - start_time.
Proof.
  revert st. induction fuel as [|fuel IH]; intros st; [discriminate|].
  destruct (validate_loop_cases w endpoint_id stack_name timeout start_time
              fuel st) as [[E Ht]|[[E Ht]|(r & E & _ & Hr & _)]]; rewrite E.
  - intros _. exact Ht.
  - apply IH.
  - intros H. now destruct Hr.
Qed.

Lemma validate_loop_raise (fuel : nat) (st : state) (e : exn) :
  fst (loop fuel st) = Raise e ->
  exists k,
    (polls st <= k)%nat
    /\ outcome (services_resp w k endpoint_id stack_name) = Raise e
    /\ polls (snd (loop fuel st)) = S k.
Proof.
  revert st. induction fuel as [|fuel IH]; intros st; [discriminate|].
  destruct (Z_lt_le_dec (now st - start_time) timeout) as [Ht|Ht].
  - destruct (services_resp w (polls st) endpoint_id stack_name)
      as [services| |] eqn:E.
    + rewrite (validate_loop_step w endpoint_id stack_name timeout
                 start_time fuel st services Ht E).
      destruct (keeps_waiting services); [|discriminate].
      intros H. apply IH in H. destruct H as (k & Hle & Hs & Hp).
      exists k. cbn [after_sleep after_poll polls] in Hle.
      repeat split; auto. lia.
    + rewrite (validate_loop_poll_fails w endpoint_id stack_name timeout
                 start_time fuel st HTTPError Ht) by now rewrite E.
      intros [= <-]. exists (polls st). rewrite E. repeat split; auto.
    + rewrite (validate_loop_poll_fails w endpoint_id stack_name timeout
                 start_time fuel st RequestException Ht) by now rewrite E.
      intros [= <-]. exists (polls st). rewrite E. repeat split; auto.
  - rewrite (validate_loop_expired w endpoint_id stack_name timeout
               start_time fuel st Ht). discriminate.
Qed.

(** After [k] rounds of waiting the poll that finds the stack converged
    ends the loop, if the timeout has not expired when it starts. *)
Lemma validate_loop_converges (k fuel : nat) (st : state)
    (services : list service) :
  (k < fuel)%nat ->
  (forall i, (i < k)%nat ->
     exists waiting,
       services_resp w (polls st + i) endpoint_id stack_name = Ok waiting
       /\ keeps_waiting waiting = true) ->
  services_resp w (polls st + k) endpoint_id stack_name = Ok services ->
  keeps_waiting services = false ->
  now st - start_time + rounds_time w (polls st) k < timeout ->
  loop fuel st =
  (Ret true,
   mkState (now st + rounds_time w (polls st) k
            + Z.of_nat (poll_duration w (polls st + k)))
           (S (polls st + k))
           (log st ++ poll_rounds endpoint_id stack_name k
                   ++ [GET_services endpoint_id stack_name])).
Proof.
  revert fuel st.
  induction k as [|k IH]; intros fuel st Hfuel Hwait Hs Hk Ht;
    (destruct fuel as [|fuel]; [lia|]).
  - rewrite Nat.add_0_r in *. cbn [rounds_time] in *.
    rewrite (validate_loop_step w endpoint_id stack_name timeout start_time
               fuel st services) by (auto; lia).
    rewrite Hk. unfold after_poll, poll_rounds. cbn [repeat List.concat app].
    f_equal. f_equal. lia.
  - pose proof (rounds_time_lower w (S (polls st)) k) as Hlow.
    unfold interval in Hlow. cbn [rounds_time] in Ht. unfold interval in Ht.
    destruct (Hwait 0%nat ltac:(lia)) as (waiting & Hw0 & Hk0).
    rewrite Nat.add_0_r in Hw0.
    rewrite (validate_loop_step w endpoint_id stack_name timeout start_time
               fuel st waiting) by (auto; lia).
    rewrite Hk0.
    rewrite (IH fuel (after_sleep (after_poll w endpoint_id stack_name st))).
    + unfold after_sleep, after_poll, interval.
      cbn [now polls log rounds_time Nat.add].
      unfold interval. rewrite <- !(plus_n_Sm (polls st) k).
      f_equal. f_equal; try lia.
      unfold poll_rounds, interval. cbn [repeat List.concat].
      now rewrite <- !app_assoc.
    + lia.
    + intros i Hi. cbn [after_sleep after_poll polls].
      destruct (Hwait (S i) ltac:(lia)) as (x & Hx & Hkx).
      exists x. rewrite <- plus_n_Sm in Hx. now split.
    + cbn [after_sleep after_poll polls]. now rewrite <- plus_n_Sm in Hs.
    + exact Hk.
    + unfold after_sleep, after_poll, interval. cbn [now polls]. lia.
Qed.

End Verdicts.

(** The verdicts of the validator are sound: [True] means that its last
    poll returned a non-empty service list in which every service met its
    health condition; [False] means that the timeout has elapsed; and it
    raises only the failure of its last poll. *)
Theorem verdicts_are_sound (w : world) (endpoint_id : Z)
    (stack_name : string) (timeout : Z) (st : state) :
  let run := validate_deployment w endpoint_id stack_name timeout st in
  (fst run = Ret true ->
   exists k services,
     (polls st <= k)%nat /\ polls (snd run) = S k
     /\ services_resp w k endpoint_id stack_name = Ok services
     /\ services <> []
     /\ forall svc, In svc services -> converged svc)
  /\ (fst run = Ret false -> timeout <= now (snd run) - now st)
  /\ (forall e,
        fst run = Raise e ->
        exists k,
          (polls st <= k)%nat /\ polls (snd run) = S k
          /\ outcome (services_resp w k endpoint_id stack_name) = Raise e).
Proof.
  cbv zeta. rewrite validate_deployment_loop. split; [|split].
  - intros H. apply validate_loop_true in H.
    destruct H as (k & services & Hle & Hs & Hk & Hp).
    apply keeps_waiting_false in Hk. destruct Hk as [Hne Hall].
    exists k, services. auto.
  - apply validate_loop_false.
  - intros e H. apply validate_loop_raise in H.
    destruct H as (k & Hle & Hs & Hp). exists k. auto.
Qed.

Lemma verdicts_are_sound_witness :
  exists k services,
    (0 <= k)%nat
    /\ polls (snd (validate_deployment (mock [prod] [] settling 0) 1 "app"
                                       120 (initial 0))) = S k
    /\ services_resp (mock [prod] [] settling 0) k 1 "app" = Ok services
    /\ services <> []
    /\ forall svc, In svc services -> converged svc.
Proof.
  apply (proj1 (verdicts_are_sound (mock [prod] [] settling 0) 1 "app" 120
                  (initial 0))).
  vm_compute. reflexivity.
Defined.

Lemma validate_deployment_bounded (w : world) (endpoint_id : Z)
    (stack_name : string) (timeout : Z) (st : state) :
  exists evs,
    log (snd (validate_deployment w endpoint_id stack_name timeout st))
    = log st ++ evs
    /\ forallb is_validation_event evs = true
    /\ (poll_count evs <= Z.to_nat (ceil_div timeout interval))%nat
    /\ (timeout <= 0 -> evs = []).
Proof.
  destruct (validate_deployment_effects w endpoint_id stack_name timeout st)
    as (evs & Hlog & Hevs & Hpolls).
  exists evs. split; [exact Hlog|]. split; [exact Hevs|]. split.
  - pose proof (validate_loop_poll_bound w endpoint_id stack_name timeout
                  (now st) (S (Z.to_nat timeout))
                  (Z.to_nat (ceil_div timeout interval)) st) as Hb.
    rewrite <- validate_deployment_loop in Hb. rewrite Hpolls in Hb.
    assert (timeout - (now st - now st)
            <= interval * Z.of_nat (Z.to_nat (ceil_div timeout interval))).
    { destruct (Z_lt_le_dec 0 timeout) as [Ht|Ht].
      - pose proof (ceil_div_interval timeout Ht). lia.
      - unfold interval. lia. }
    apply Hb in H. lia.
  - intros Ht. rewrite validate_deployment_loop in Hlog.
    rewrite (validate_loop_expired w endpoint_id stack_name timeout (now st)
               (Z.to_nat timeout) st) in Hlog by lia.
    cbn [snd] in Hlog. rewrite <- (app_nil_r (log st)) in Hlog at 1.
    now apply app_inv_head in Hlog.
Qed.

(** Whatever the server answers, the validator ends, does nothing but
    poll the service list and sleep, and polls at most ceil(timeout / 5)
    times: not at all when the timeout is 0 or less. *)
Theorem validation_is_bounded (w : world) (endpoint_id : Z)
    (stack_name : string) (timeout : Z) (st : state) :
  let run := validate_deployment w endpoint_id stack_name timeout st in
  fst run <> Diverge
  /\ exists evs,
       log (snd run) = log st ++ evs
       /\ forallb is_validation_event evs = true
       /\ (poll_count evs <= Z.to_nat (ceil_div timeout interval))%nat
       /\ (timeout <= 0 -> evs = []).
Proof.
  cbv zeta. split; [apply validate_deployment_total|].
  apply validate_deployment_bounded.
Qed.

(** When the polls before the [k]-th all leave the validator waiting, the
    [k]-th returns a non-empty list of services that all meet their health
    condition, and the [k] rounds of poll and sleep before it take less
    than the timeout, the validator returns [True] at that poll, after
    exactly [k] sleeps. *)
Theorem converges_after_waiting (w : world) (endpoint_id : Z)
    (stack_name : string) (timeout : Z) (st : state) (k : nat)
    (services : list service) :
  (forall i, (i < k)%nat ->
     exists waiting,
       services_resp w (polls st + i) endpoint_id stack_name = Ok waiting
       /\ keeps_waiting waiting = true) ->
  services_resp w (polls st + k) endpoint_id stack_name = Ok services ->
  services <> [] ->
  (forall svc, In svc services -> converged svc) ->
  rounds_time w (polls st) k < timeout ->
  validate_deployment w endpoint_id stack_name timeout st =
  (Ret true,
   mkState (now st + rounds_time w (polls st) k
            + Z.of_nat (poll_duration w (polls st + k)))
           (S (polls st + k))
           (log st ++ poll_rounds endpoint_id stack_name k
                   ++ [GET_services endpoint_id stack_name])).
Proof.
  intros Hwait Hs Hne Hall Ht. rewrite validate_deployment_loop.
  pose proof (rounds_time_lower w (polls st) k) as Hlow.
  unfold interval in Hlow.
  apply validate_loop_converges with (services := services); auto.
  - lia.
  - now apply converged_stops_waiting.
  - lia.
Qed.

Lemma converges_after_waiting_witness :
  validate_deployment (mock [prod] [] settling 1) 1 "app" 120 (initial 0)
  = (Ret true,
     mkState 13 3
       [GET_services 1 "app"; Sleep 5; GET_services 1 "app"; Sleep 5;
        GET_services 1 "app"]).
Proof.
  apply (converges_after_waiting (mock [prod] [] settling 1) 1 "app" 120
           (initial 0) 2 [replicated_service "web" 2 2]).
  - intros i Hi. exists [replicated_service "web" 2 1].
    destruct i as [|[|i]]; [split; reflexivity|split; reflexivity|lia].
  - reflexivity.
  - discriminate.
  - intros svc [<-|[]]. vm_compute. lia.
  - vm_compute. reflexivity.
Defined.

(** ** What a deploy run changes, and how its failures surface *)

Lemma occurrences_app (p : event -> bool) (l1 l2 : list event) :
  occurrences p (l1 ++ l2) = (occurrences p l1 + occurrences p l2)%nat.
Proof. unfold occurrences. now rewrite filter_app, length_app. Qed.

Lemma occurrences_none (p q : event -> bool) (l : list event) :
  (forall e, q e = true -> p e = false) ->
  forallb q l = true -> occurrences p l = 0%nat.
Proof.
  intros Hpq Hl. unfold occurrences.
  induction l as [|e l IH]; simpl in *; [reflexivity|].
  apply andb_true_iff in Hl. destruct Hl as [He Hl].
  rewrite (Hpq e He). now apply IH.
Qed.

(** A deploy run changes at most one thing on the server, never by a
    deletion, and only after it has read the descriptor, resolved the
    endpoint and listed the stacks: an update of the first listed stack of
    the requested name on that endpoint, with [prune] set, or, when there
    is none, a create that carries the cluster identity the lookup
    returned. *)
Theorem deploy_is_sound (w : world) (args : arguments) (st : state) :
  exists evs,
    log (snd (cmd_deploy w args st)) = log st ++ evs
    /\ (occurrences is_write evs <= 1)%nat
    /\ forall e,
         In e evs -> is_write e = true ->
         exists content endpoints endpoint_id stacks,
           files w (arg_compose_file args) = Some content
           /\ endpoints_resp w = Ok endpoints
           /\ select_endpoint endpoints (arg_endpoint args) = inl endpoint_id
           /\ stacks_resp w = Ok stacks
           /\ match find_existing stacks (arg_stack_name args) endpoint_id
              with
              | Some s =>
                  e = PUT_update (stack_Id s) endpoint_id content
                                 (env_vars_of (arg_env args)) true
              | None =>
                  exists swarm_id,
                    swarm_resp w endpoint_id = Ok swarm_id
                    /\ e = POST_create endpoint_id (arg_stack_name args)
                                       content swarm_id
                                       (env_vars_of (arg_env args))
              end.
Proof.
  assert (Hnone : forall evs,
             evs = [] \/ evs = [GET_endpoints]
             \/ evs = [GET_endpoints; GET_stacks] ->
             (occurrences is_write evs <= 1)%nat
             /\ forall e, In e evs -> is_write e = true -> False).
  { intros evs [->|[->| ->]]; (split; [vm_compute; lia|]);
      intros e H; simpl in H; intuition (subst; discriminate). }
  assert (Hdone : forall evs,
             log (snd (cmd_deploy w args st)) = log st ++ evs ->
             evs = [] \/ evs = [GET_endpoints]
             \/ evs = [GET_endpoints; GET_stacks] ->
             exists evs',
               log (snd (cmd_deploy w args st)) = log st ++ evs'
               /\ (occurrences is_write evs' <= 1)%nat
               /\ forall e, In e evs' -> is_write e = true ->
                    exists content endpoints endpoint_id stacks,
                      files w (arg_compose_file args) = Some content
                      /\ endpoints_resp w = Ok endpoints
                      /\ select_endpoint endpoints (arg_endpoint args)
                         = inl endpoint_id
                      /\ stacks_resp w = Ok stacks
                      /\ match find_existing stacks (arg_stack_name args)
                                             endpoint_id with
                         | Some s =>
                             e = PUT_update (stack_Id s) endpoint_id content
                                   (env_vars_of (arg_env args)) true
                         | None =>
                             exists swarm_id,
                               swarm_resp w endpoint_id = Ok swarm_id
                               /\ e = POST_create endpoint_id
                                        (arg_stack_name args) content swarm_id
                                        (env_vars_of (arg_env args))
                         end).
  { intros evs Hlog Hevs. exists evs. destruct (Hnone evs Hevs) as [H1 H2].
    split; [exact Hlog|]. split; [exact H1|].
    intros e Hin Hw. destruct (H2 e Hin Hw). }
  destruct (files w (arg_compose_file args)) as [content|] eqn:Hf.
  2:{ apply (Hdone []); auto. unfold cmd_deploy. rewrite Hf.
      simpl. now rewrite app_nil_r. }
  destruct (endpoints_resp w) as [endpoints| |] eqn:He.
  2,3: apply (Hdone [GET_endpoints]); auto; unfold cmd_deploy; rewrite Hf;
       unfold bind at 1, try_except, get_endpoint_id, bind at 1,
         get_endpoints, request, bind at 1, emit; rewrite He; reflexivity.
  destruct (select_endpoint endpoints (arg_endpoint args))
    as [endpoint_id|why] eqn:Hsel.
  2:{ apply (Hdone [GET_endpoints]); auto.
      now rewrite (cmd_deploy_unresolved w args endpoints why content st
                     He Hsel Hf). }
  destruct (stacks_resp w) as [stacks| |] eqn:Hs.
  2,3: apply (Hdone [GET_endpoints; GET_stacks]); auto;
       unfold cmd_deploy; rewrite Hf; unfold bind at 1, try_except;
       rewrite (get_endpoint_id_run w endpoints _ st He), Hsel;
       unfold bind at 1, list_stacks, request, bind at 1, emit; rewrite Hs;
       cbn [snd log raise]; now rewrite <- app_assoc.
  destruct (cmd_deploy_log w args content endpoints endpoint_id stacks st
              Hf He Hsel Hs) as (vevs & Hlog & Hvevs & _).
  set (name := arg_stack_name args) in *.
  set (env_vars := env_vars_of (arg_env args)) in *.
  set (mevs := mutation_events w args content env_vars endpoint_id
                 (find_existing stacks name endpoint_id)) in *.
  assert (Hv : occurrences is_write vevs = 0%nat).
  { apply (occurrences_none is_write is_validation_event); [|exact Hvevs].
    intros [] H; try discriminate; reflexivity. }
  assert (Hvin : forall e, In e vevs -> is_write e = true -> False).
  { intros e Hin Hw. rewrite forallb_forall in Hvevs.
    specialize (Hvevs e Hin). destruct e; discriminate. }
  exists (GET_endpoints :: GET_stacks :: mevs ++ vevs).
  split; [exact Hlog|]. split.
  - change (GET_endpoints :: GET_stacks :: mevs ++ vevs)
      with ([GET_endpoints; GET_stacks] ++ mevs ++ vevs).
    rewrite !occurrences_app, Hv. unfold mevs, mutation_events.
    destruct (find_existing stacks name endpoint_id); [vm_compute; lia|].
    destruct (swarm_resp w endpoint_id); vm_compute; lia.
  - intros e Hin Hw.
    exists content, endpoints, endpoint_id, stacks.
    repeat (split; [first [reflexivity|assumption]|]).
    destruct Hin as [<-|[<-|Hin]]; try discriminate.
    apply in_app_or in Hin. destruct Hin as [Hin|Hin];
      [|destruct (Hvin e Hin Hw)].
    unfold mevs, mutation_events in Hin.
    destruct (find_existing stacks name endpoint_id) as [s|].
    + destruct Hin as [<-|[]]. reflexivity.
    + destruct Hin as [<-|Hin]; [discriminate|].
      destruct (swarm_resp w endpoint_id) as [swarm_id| |]; simpl in Hin;
        try contradiction.
      destruct Hin as [<-|[]]. now exists swarm_id.
Qed.

(** The script reports an HTTP error of the mutation and returns 1, but an
    HTTP error of the endpoint listing or of the stack listing is outside
    its handlers and leaves [cmd_deploy] as an exception, before anything
    is changed. *)
Theorem listing_errors_escape_deploy (w : world) (args : arguments)
    (content : string) (st : state) :
  files w (arg_compose_file args) = Some content ->
  (endpoints_resp w = HttpFail ->
   cmd_deploy w args st =
   (Raise HTTPError,
    mkState (now st) (polls st) (log st ++ [GET_endpoints])))
  /\
  (forall endpoints endpoint_id,
     endpoints_resp w = Ok endpoints ->
     select_endpoint endpoints (arg_endpoint args) = inl endpoint_id ->
     stacks_resp w = HttpFail ->
     cmd_deploy w args st =
     (Raise HTTPError,
      mkState (now st) (polls st) (log st ++ [GET_endpoints; GET_stacks])))
  /\
  (forall endpoints endpoint_id stacks,
     endpoints_resp w = Ok endpoints ->
     select_endpoint endpoints (arg_endpoint args) = inl endpoint_id ->
     stacks_resp w = Ok stacks ->
     mutation_resp w args content (env_vars_of (arg_env args)) endpoint_id
       (find_existing stacks (arg_stack_name args) endpoint_id) = HttpFail ->
     fst (cmd_deploy w args st) = Ret 1).
Proof.
  intros Hf. split; [|split].
  - intros He. unfold cmd_deploy. rewrite Hf.
    unfold bind at 1, try_except, get_endpoint_id, bind at 1, get_endpoints,
      request, bind at 1, emit. now rewrite He.
  - intros endpoints endpoint_id He Hsel Hs. unfold cmd_deploy. rewrite Hf.
    unfold bind at 1, try_except.
    rewrite (get_endpoint_id_run w endpoints _ st He), Hsel.
    unfold bind at 1, list_stacks, request, bind at 1, emit. rewrite Hs.
    cbn [raise now polls log]. now rewrite <- app_assoc.
  - intros endpoints endpoint_id stacks He Hsel Hs Hm.
    rewrite (cmd_deploy_run w args content endpoints endpoint_id stacks st
               Hf He Hsel Hs).
    cbv zeta. now rewrite Hm.
Qed.

Lemma listing_errors_escape_deploy_witness :
  cmd_deploy (with_endpoints (mock [prod] [] running 0) HttpFail)
             (deploy_args None) (initial 0)
  = (Raise HTTPError, mkState 0 0 [GET_endpoints])
  /\ cmd_deploy (with_stacks (mock [prod] [] running 0) HttpFail)
                (deploy_args None) (initial 0)
     = (Raise HTTPError, mkState 0 0 [GET_endpoints; GET_stacks])
  /\ fst (cmd_deploy (refuse_mutations (mock [prod] [] running 0))
                     (deploy_args None) (initial 0)) = Ret 1.
Proof.
  split; [|split].
  - apply (proj1 (listing_errors_escape_deploy
                    (with_endpoints (mock [prod] [] running 0) HttpFail)
                    (deploy_args None) "version:1" (initial 0) eq_refl)).
    reflexivity.
  - apply (proj1 (proj2 (listing_errors_escape_deploy
                           (with_stacks (mock [prod] [] running 0) HttpFail)
                           (deploy_args None) "version:1" (initial 0)
                           eq_refl))
             [prod] 1); reflexivity.
  - apply (proj2 (proj2 (listing_errors_escape_deploy
                           (refuse_mutations (mock [prod] [] running 0))
                           (deploy_args None) "version:1" (initial 0)
                           eq_refl))
             [prod] 1 []); reflexivity.
Defined.

(** When the first service poll of the validation a deploy run starts
    fails, the run ends there, without a sleep or a second poll: with 1
    for an HTTP error, which [cmd_deploy] handles, and with the exception
    for any other request failure. *)
Theorem poll_failure_ends_deploy (w : world) (args : arguments)
    (content : string) (endpoint_id : Z) (stacks : list stack) (st : state) :
  reaches_mutation w args content endpoint_id stacks ->
  mutation_resp w args content (env_vars_of (arg_env args)) endpoint_id
    (find_existing stacks (arg_stack_name args) endpoint_id) = Ok tt ->
  arg_no_validate args = false ->
  let after :=
    after_poll w endpoint_id (arg_stack_name args)
      (validation_start w args content endpoint_id stacks st) in
  (services_resp w (polls st) endpoint_id (arg_stack_name args) = HttpFail ->
   main w args st = (Ret 1, after))
  /\
  (services_resp w (polls st) endpoint_id (arg_stack_name args)
   = TransportFail ->
   main w args st = (Raise RequestException, after)).
Proof.
  intros Hr Hm Hval after.
  rewrite (deploy_reaches_mutation w args content endpoint_id stacks st Hr).
  cbv zeta. rewrite Hm, Hval.
  set (st_m := validation_start w args content endpoint_id stacks st) in *.
  rewrite validate_deployment_loop.
  assert (Ht : now st_m - now st_m < default_timeout)
    by (unfold default_timeout; lia).
  split; intros Hs.
  - rewrite (validate_loop_poll_fails w endpoint_id (arg_stack_name args)
               default_timeout (now st_m) _ st_m HTTPError Ht);
      [reflexivity|].
    unfold st_m, validation_start. cbn [polls]. now rewrite Hs.
  - rewrite (validate_loop_poll_fails w endpoint_id (arg_stack_name args)
               default_timeout (now st_m) _ st_m RequestException Ht);
      [reflexivity|].
    unfold st_m, validation_start. cbn [polls]. now rewrite Hs.
Qed.

Lemma poll_failure_ends_deploy_witness :
  main (with_polls (mock [prod] [] running 0) HttpFail) (deploy_args None)
       (initial 0)
  = (Ret 1,
     mkState 0 1
       [POST_auth "admin" "secret"; GET_endpoints; GET_stacks; GET_swarm 1;
        POST_create 1 "app" "version:1" "swarm-1" []; GET_services 1 "app"]).
Proof.
  apply (proj1 (poll_failure_ends_deploy
                  (with_polls (mock [prod] [] running 0) HttpFail)
                  (deploy_args None) "version:1" 1 [] (initial 0)
                  ltac:(repeat split; auto; now exists [prod])
                  eq_refl eq_refl)).
  reflexivity.
Defined.

(** A deploy run validates with the default timeout of 120: whatever the
    server answers it polls the service list at most 24 times, and with
    [--no-validate] it neither polls nor sleeps. *)
Theorem deploy_polling_budget (w : world) (args : arguments) (st : state) :
  exists evs,
    log (snd (cmd_deploy w args st)) = log st ++ evs
    /\ (poll_count evs <= 24)%nat
    /\ (arg_no_validate args = true ->
        forall e, In e evs -> is_validation_event e = false).
Proof.
  assert (Hdone : forall evs,
             log (snd (cmd_deploy w args st)) = log st ++ evs ->
             forallb (fun e => negb (is_validation_event e)) evs = true ->
             exists evs',
               log (snd (cmd_deploy w args st)) = log st ++ evs'
               /\ (poll_count evs' <= 24)%nat
               /\ (arg_no_validate args = true ->
                   forall e, In e evs' -> is_validation_event e = false)).
  { intros evs Hlog Hevs. exists evs. split; [exact Hlog|].
    rewrite forallb_forall in Hevs. split.
    - unfold poll_count.
      replace (filter is_poll evs) with (@nil event); [simpl; lia|].
      symmetry. clear Hlog. induction evs as [|e evs IH]; [reflexivity|].
      simpl. pose proof (Hevs e (or_introl eq_refl)) as He.
      destruct e; try discriminate; apply IH; intros x Hx; apply Hevs;
        now right.
    - intros _ e Hin. apply negb_true_iff. now apply Hevs. }
  destruct (files w (arg_compose_file args)) as [content|] eqn:Hf.
  2:{ apply (Hdone []); auto. unfold cmd_deploy. rewrite Hf.
      simpl. now rewrite app_nil_r. }
  destruct (endpoints_resp w) as [endpoints| |] eqn:He.
  2,3: apply (Hdone [GET_endpoints]); auto; unfold cmd_deploy; rewrite Hf;
       unfold bind at 1, try_except, get_endpoint_id, bind at 1,
         get_endpoints, request, bind at 1, emit; rewrite He; reflexivity.
  destruct (select_endpoint endpoints (arg_endpoint args))
    as [endpoint_id|why] eqn:Hsel.
  2:{ apply (Hdone [GET_endpoints]); auto.
      now rewrite (cmd_deploy_unresolved w args endpoints why content st
                     He Hsel Hf). }
  destruct (stacks_resp w) as [stacks| |] eqn:Hs.
  2,3: apply (Hdone [GET_endpoints; GET_stacks]); auto;
       unfold cmd_deploy; rewrite Hf; unfold bind at 1, try_except;
       rewrite (get_endpoint_id_run w endpoints _ st He), Hsel;
       unfold bind at 1, list_stacks, request, bind at 1, emit; rewrite Hs;
       cbn [snd log raise]; now rewrite <- app_assoc.
  pose proof (cmd_deploy_run w args content endpoints endpoint_id stacks st
                Hf He Hsel Hs) as Hrun.
  cbv zeta in Hrun.
  set (env_vars := env_vars_of (arg_env args)) in *.
  set (existing := find_existing stacks (arg_stack_name args) endpoint_id)
    in *.
  set (mevs := mutation_events w args content env_vars endpoint_id existing)
    in *.
  assert (Hm : forallb (fun e => negb (is_validation_event e))
                 (GET_endpoints :: GET_stacks :: mevs) = true).
  { unfold mevs, mutation_events. destruct existing; [reflexivity|].
    destruct (swarm_resp w endpoint_id); reflexivity. }
  destruct (mutation_resp w args content env_vars endpoint_id existing)
    as [u| |].
  2,3: apply (Hdone (GET_endpoints :: GET_stacks :: mevs)); auto;
       now rewrite Hrun.
  destruct (arg_no_validate args) eqn:Hval.
  { apply (Hdone (GET_endpoints :: GET_stacks :: mevs)); auto.
    now rewrite Hrun. }
  set (st_m := mkState (now st) (polls st)
                 (log st ++ GET_endpoints :: GET_stacks :: mevs)) in *.
  destruct (validate_deployment_bounded w endpoint_id (arg_stack_name args)
              default_timeout st_m)
    as (vevs & Hlog & Hvevs & Hcount & _).
  exists ((GET_endpoints :: GET_stacks :: mevs) ++ vevs).
  rewrite Hrun, snd_validated, Hlog. unfold st_m. cbn [log].
  rewrite <- app_assoc. split; [reflexivity|]. split; [|discriminate].
  unfold poll_count in *. rewrite filter_app, length_app.
  replace (filter is_poll (GET_endpoints :: GET_stacks :: mevs))
    with (@nil event).
  - change (Z.to_nat (ceil_div default_timeout interval)) with 24%nat
      in Hcount. simpl. exact Hcount.
  - unfold mevs, mutation_events. destruct existing; [reflexivity|].
    destruct (swarm_resp w endpoint_id); reflexivity.
Qed.
